(** * MCP configuration manager: a shallow embedding of [src/mcp_core.py]

    The development follows the module top to bottom: JSON documents as
    the values [json.load] produces, the five format handlers, the
    synchronizer with the file system it reads and writes, and the
    watcher's debounce table.  A Python exception is the [None] of an [option]; Python's
    [None] returned by [load_existing_config] is a constructor of its own. *)

From stdpp Require Import base option list gmap strings fin_maps.
From Stdlib Require Import ZArith Ascii.

Set Warnings "-register-all".

(** ** JSON values

    What [json.load] returns: [None], [bool], numbers, [str], [list] and
    [dict] with string keys.  A [dict] is a finite map, so two documents
    that differ only in key order are equal, as Python's [==] on dicts
    has it.  Numbers are integers here; floating-point values are outside
    the model. *)

Inductive json :=
| JNull
| JBool (b : bool)
| JNum (z : Z)
| JStr (s : string)
| JArr (l : list json)
| JObj (m : gmap string json).

Fixpoint json_eq_dec (a b : json) : Decision (a = b).
Proof.
  refine (match a, b with
          | JNull, JNull => left _
          | JBool x, JBool y => cast_if (decide (x = y))
          | JNum x, JNum y => cast_if (decide (x = y))
          | JStr x, JStr y => cast_if (decide (x = y))
          | JArr x, JArr y => cast_if (@list_eq_dec _ json_eq_dec x y)
          | JObj x, JObj y => cast_if (@gmap_eq_dec _ _ _ _ json_eq_dec x y)
          | _, _ => right _
          end); congruence.
Defined.

#[global] Instance json_eqdec : EqDecision json := json_eq_dec.

#[global] Instance json_inhabited : Inhabited json := populate JNull.

(** The empty dict [{}] and the empty list [[]]. *)
Definition empty_dict : json := JObj ∅.
Definition empty_list : json := JArr [].

(** ** Python operators on JSON values *)

Module Py.

(** [isinstance(j, dict)]. *)
Definition is_dict (j : json) : bool :=
  match j with JObj _ => true | _ => false end.

(** Truth value of [j] in a condition ([if j], [not j], [a and b]). *)
Definition truthy (j : json) : bool :=
  match j with
  | JNull => false
  | JBool b => b
  | JNum z => bool_decide (z ≠ 0%Z)
  | JStr s => bool_decide (s ≠ "")
  | JArr l => bool_decide (l ≠ [])
  | JObj m => bool_decide (m ≠ ∅)
  end.

(** [len(j)]: defined on [str], [list] and [dict]; [TypeError] on the
    rest. *)
Definition len (j : json) : option nat :=
  match j with
  | JStr s => Some (String.length s)
  | JArr l => Some (length l)
  | JObj m => Some (size m)
  | _ => None
  end.

(** [key in j]: key membership for a dict, element membership for a
    list, substring test for a str, [TypeError] for the rest. *)
Definition contains (key : string) (j : json) : option bool :=
  match j with
  | JObj m => Some (bool_decide (is_Some (m !! key)))
  | JArr l => Some (bool_decide (JStr key ∈ l))
  | JStr s => Some (bool_decide (is_Some (String.index 0 key s)))
  | _ => None
  end.

(** [j.get(key, default)]: only a dict has [get]. *)
Definition get (key : string) (dflt : json) (j : json) : option json :=
  match j with
  | JObj m => Some (default dflt (m !! key))
  | _ => None
  end.

(** [j[key]] with a string key: [KeyError] for a missing key,
    [TypeError] for anything that is not a dict. *)
Definition getitem (key : string) (j : json) : option json :=
  match j with
  | JObj m => m !! key
  | _ => None
  end.

(** [j.keys()] as a set of names. *)
Definition keys (j : json) : option (gset string) :=
  match j with
  | JObj m => Some (dom m)
  | _ => None
  end.

End Py.

(** ** Format handlers *)

(** The five subclasses of [ConfigFormatHandler]. *)
Inductive handler :=
| ClaudeDesktopHandler
| StandardMCPHandler
| VSCodeHandler
| CursorHandler
| LegacyMCPHandler.

#[global] Instance handler_eqdec : EqDecision handler.
Proof. solve_decision. Defined.

Definition get_format_name (h : handler) : string :=
  match h with
  | ClaudeDesktopHandler => "Claude Desktop (mcpServers)"
  | StandardMCPHandler => "Standard MCP"
  | VSCodeHandler => "VSCode (mcp.servers)"
  | CursorHandler => "Cursor (mixed)"
  | LegacyMCPHandler => "Legacy/Empty"
  end.

(** Python's short-circuit [a and b] over conditions that may raise. *)
Definition and_then (a : option bool) (b : option bool) : option bool :=
  match a with
  | Some true => b
  | other => other
  end.

(** [isinstance(config_data['mcp'], dict)], evaluated after
    ['mcp' in config_data] held. *)
Definition mcp_is_dict (config_data : json) : option bool :=
  Py.is_dict <$> Py.getitem "mcp" config_data.

(** [detect_format] of each handler, on whatever [json.load] returned. *)
Definition detect_format (h : handler) (config_data : json) : option bool :=
  match h with
  | ClaudeDesktopHandler => Py.contains "mcpServers" config_data
  | StandardMCPHandler => Py.contains "mcp" config_data
  | VSCodeHandler =>
      and_then (Py.contains "mcp" config_data)
        (and_then (mcp_is_dict config_data)
           (Py.getitem "mcp" config_data ≫= Py.contains "servers"))
  | CursorHandler =>
      and_then (Py.contains "mcpServers" config_data)
        (and_then (Py.contains "mcp" config_data) (mcp_is_dict config_data))
  | LegacyMCPHandler => Some true
  end.

(** The normalized dicts built by [extract_mcp_config]. *)
Definition normalized (format : string) (servers : json) : gmap string json :=
  <["servers" := servers]> (<["format" := JStr format]> ∅).

Definition extract_mcp_config (h : handler) (config_data : json) : option json :=
  match h with
  | ClaudeDesktopHandler =>
      mcp_servers ← Py.get "mcpServers" empty_dict config_data;
      Some (JObj (normalized "claude_desktop" mcp_servers))
  | StandardMCPHandler => Py.get "mcp" empty_dict config_data
  | VSCodeHandler =>
      mcp_section ← Py.get "mcp" empty_dict config_data;
      servers ← Py.get "servers" empty_dict mcp_section;
      inputs ← Py.get "inputs" empty_list mcp_section;
      Some (JObj (<["inputs" := inputs]> (normalized "vscode" servers)))
  | CursorHandler =>
      has_mcp ← and_then (Py.contains "mcp" config_data) (mcp_is_dict config_data);
      if has_mcp : bool then Py.getitem "mcp" config_data
      else
        mcp_servers ← Py.get "mcpServers" empty_dict config_data;
        Some (JObj (normalized "cursor_legacy" mcp_servers))
  | LegacyMCPHandler => Some empty_dict
  end.

(** The server map a handler writes for a canonical config: its
    ['servers'] entry, else its ['mcpServers'] entry, else the value
    itself (the chain of [isinstance(mcp_config, dict) and ... in
    mcp_config] tests of the Claude and VSCode handlers). *)
Definition servers_to_write (mcp_config : json) : json :=
  match mcp_config with
  | JObj c =>
      match c !! "servers" with
      | Some s => s
      | None =>
          match c !! "mcpServers" with
          | Some s => s
          | None => mcp_config
          end
      end
  | _ => mcp_config
  end.

(** The ['mcp'] section VSCode writes, from the section [sec] already in
    the file. *)
Definition vscode_section (sec : gmap string json) (mcp_config : json)
  : gmap string json :=
  let sec1 := <["servers" := servers_to_write mcp_config]> sec in
  let sec2 :=
    match mcp_config with
    | JObj c =>
        match c !! "servers", c !! "inputs" with
        | Some _, Some i => <["inputs" := i]> sec1
        | _, _ => sec1
        end
    | _ => sec1
    end in
  match sec2 !! "inputs" with
  | Some _ => sec2
  | None => <["inputs" := empty_list]> sec2
  end.

(** The [inputs] entry VSCode's merge leaves in the [mcp] section: the
    canonical one when the canonical config has [servers] and [inputs],
    else the one already there, else [[]]. *)
Definition inputs_to_write (sec : gmap string json) (mcp_config : json) : json :=
  match mcp_config with
  | JObj c =>
      match c !! "servers", c !! "inputs" with
      | Some _, Some i => i
      | _, _ => default empty_list (sec !! "inputs")
      end
  | _ => default empty_list (sec !! "inputs")
  end.

(** [merge_mcp_config] on a dict [existing_config].  VSCode assigns
    through [updated_config['mcp']]: when that entry is not a dict the
    item assignment raises [TypeError]. *)
Definition merge_mcp_dict (h : handler) (existing_config : gmap string json)
    (mcp_config : json) : option (gmap string json) :=
  match h with
  | ClaudeDesktopHandler =>
      Some (<["mcpServers" := servers_to_write mcp_config]> existing_config)
  | StandardMCPHandler | LegacyMCPHandler =>
      Some (<["mcp" := mcp_config]> existing_config)
  | VSCodeHandler =>
      let updated_config :=
        match existing_config !! "mcp" with
        | None => <["mcp" := empty_dict]> existing_config
        | Some _ => existing_config
        end in
      match updated_config !! "mcp" with
      | Some (JObj sec) =>
          Some (<["mcp" := JObj (vscode_section sec mcp_config)]> updated_config)
      | _ => None
      end
  | CursorHandler =>
      Some (delete "mcpServers" (<["mcp" := mcp_config]> existing_config))
  end.

(** [merge_mcp_config] on whatever [json.load] returned.  Every handler
    starts with [existing_config.copy()] and then assigns through a string
    key: a list has [copy] but rejects the string index, the other
    non-dict values have no [copy]; either way the call raises. *)
Definition merge_mcp_config (h : handler) (existing_config : json)
    (mcp_config : json) : option json :=
  match existing_config with
  | JObj m => JObj <$> merge_mcp_dict h m mcp_config
  | _ => None
  end.

(** The top-level keys a handler's merge may touch. *)
Definition mcp_keys (h : handler) : gset string :=
  match h with
  | ClaudeDesktopHandler => {["mcpServers"]}
  | CursorHandler => {["mcp"; "mcpServers"]}
  | _ => {["mcp"]}
  end.

(** ** Format router *)

(** [FORMAT_HANDLERS], in the order of the class attribute. *)
Definition FORMAT_HANDLERS : list handler :=
  [ClaudeDesktopHandler; VSCodeHandler; CursorHandler; StandardMCPHandler;
   LegacyMCPHandler].

(** The [for] loop of [detect_config_format]: first handler whose
    [detect_format] holds; a raising probe aborts the loop; after the
    loop the fallback [LegacyMCPHandler()]. *)
Fixpoint first_match (handlers : list handler) (config_data : json)
  : option handler :=
  match handlers with
  | [] => Some LegacyMCPHandler
  | h :: rest =>
      b ← detect_format h config_data;
      if b : bool then Some h else first_match rest config_data
  end.

Definition detect_config_format (config_data : json) : option handler :=
  first_match FORMAT_HANDLERS config_data.

(** [APP_HANDLERS.get(app_name, StandardMCPHandler())]. *)
Definition get_app_handler (app_name : string) : handler :=
  if decide (app_name = "Claude") then ClaudeDesktopHandler
  else if decide (app_name = "VSCode") then VSCodeHandler
  else if decide (app_name = "Cursor") then CursorHandler
  else StandardMCPHandler.

(** ** The file system the synchronizer reads and writes *)

(** A path is its list of components below a fixed root. *)
Abbreviation path := (list string).

(** [Path.parent]. *)
Definition parent (p : path) : path := take (length p - 1) p.

(** [p] together with all its ancestors, root first: what
    [mkdir(parents=True)] walks through. *)
Definition ancestors (p : path) : list path :=
  (λ n, take n p) <$> seq 0 (S (length p)).

(** Content of a regular file: text [json.load] rejects, or the value it
    returns. *)
Inductive file :=
| Malformed
| Doc (j : json).

#[global] Instance file_eqdec : EqDecision file.
Proof. solve_decision. Defined.

(** [files]: the regular files; [dirs]: the directories; [readonly]: the
    paths [open(path, 'w')] is refused on. *)
Record fsys := Fsys {
  files : gmap path file;
  dirs : gset path;
  readonly : gset path
}.

#[global] Instance fsys_eqdec : EqDecision fsys.
Proof. solve_decision. Defined.

(** [Path.exists]. *)
Definition path_exists (fs : fsys) (p : path) : bool :=
  bool_decide (is_Some (files fs !! p)) || bool_decide (p ∈ dirs fs).

(** [mkdir(parents=True, exist_ok=True)]: raises when a regular file sits
    on the path or on one of its ancestors. *)
Definition mkdir_parents (fs : fsys) (d : path) : option fsys :=
  if bool_decide (Forall (λ a, files fs !! a = None) (ancestors d))
  then Some (Fsys (files fs) (dirs fs ∪ list_to_set (ancestors d)) (readonly fs))
  else None.

(** [with open(config_path, 'w') as f: json.dump(updated_config, f,
    indent=2)]: the open fails on a directory, on a refused path and below
    a missing directory, leaving the file as it was. *)
Definition write_file (fs : fsys) (p : path) (j : json) : option fsys :=
  if bool_decide (p ∈ dirs fs) || bool_decide (p ∈ readonly fs)
     || negb (bool_decide (parent p ∈ dirs fs))
  then None
  else Some (Fsys (<[p := Doc j]> (files fs)) (dirs fs) (readonly fs)).

(** [Path(s)]: the components of [s] between slashes, for the absolute,
    normalised strings the observer reports and [Path.home()] builds; a
    ["."] component and the difference between an absolute and a relative
    string are not modelled. *)
Fixpoint split_slash (cur : string) (s : string) : list string :=
  match s with
  | EmptyString => if decide (cur = "") then [] else [cur]
  | String c rest =>
      if decide (c = "/"%char)
      then (if decide (cur = "") then [] else [cur]) ++ split_slash "" rest
      else split_slash (cur +:+ String c EmptyString) rest
  end.

Definition Path (s : string) : path := split_slash "" s.

(** ** Synchronizer *)

(** [self.config], [self.CONFIG_FILES] (a dict, in insertion order) and the
    file system. *)
Record synchronizer := Synchronizer {
  config : json;
  CONFIG_FILES : list (string * path);
  fs : fsys
}.

#[global] Instance synchronizer_eqdec : EqDecision synchronizer.
Proof. solve_decision. Defined.

Definition set_config (c : json) (st : synchronizer) : synchronizer :=
  Synchronizer c (CONFIG_FILES st) (fs st).

Definition set_fs (f : fsys) (st : synchronizer) : synchronizer :=
  Synchronizer (config st) (CONFIG_FILES st) f.

(** [DEFAULT_MCP_CONFIG]. *)
Definition DEFAULT_MCP_CONFIG : json := JObj {["servers" := empty_dict]}.

(** [ensure_directories]: one [mkdir] per target, in order; the first one
    that raises aborts the call. *)
Fixpoint ensure_dirs (targets : list (string * path)) (f : fsys) : option fsys :=
  match targets with
  | [] => Some f
  | (_, config_path) :: rest =>
      f' ← mkdir_parents f (parent config_path);
      ensure_dirs rest f'
  end.

Definition ensure_directories (st : synchronizer) : option synchronizer :=
  f ← ensure_dirs (CONFIG_FILES st) (fs st);
  Some (set_fs f st).

(** [load_existing_config]: [{}] for a missing file, the parsed value for a
    readable one, Python's [None] (which is also what [json.load] returns
    for the document [null]) when reading or parsing fails; opening a
    directory fails. *)
Definition load_existing_config (f : fsys) (config_path : path) : json :=
  if bool_decide (config_path ∈ dirs f) then JNull
  else
    match files f !! config_path with
    | None => empty_dict
    | Some Malformed => JNull
    | Some (Doc j) => j
    end.

(** The inner [deep_merge(d1, d2)] of [merge_configs].  [d2.items()] needs
    a dict.  With [d1] a dict the loop assigns key by key.  With [d1] not
    a dict an empty [d2] returns [d1] untouched and any entry of [d2]
    raises: [key in d1] or [d1.get] or the item assignment [d1[key] = ...]
    fails on every value that is not a dict. *)
Fixpoint deep_merge (d1 : json) (d2 : json) {struct d2} : option json :=
  match d2 with
  | JObj m2 =>
      match d1 with
      | JObj m1 =>
          JObj <$>
          map_fold (λ key value (acc : option (gmap string json)),
              d ← acc;
              match value, d !! key with
              | JObj _, Some old =>
                  merged ← deep_merge old value;
                  Some (<[key := merged]> d)
              | _, _ => Some (<[key := value]> d)
              end)
            (Some m1) m2
      | _ => if bool_decide (m2 = ∅) then Some d1 else None
      end
  | _ => None
  end.

(** [merge_configs]: [deep_merge(existing_config.copy(), new_config)];
    only dicts and lists have [copy]. *)
Definition merge_configs (existing_config new_config : json) : option json :=
  match existing_config with
  | JObj _ | JArr _ => deep_merge existing_config new_config
  | _ => None
  end.

(** One entry of the list [check_destructive_operations] returns.  The
    three name lists are kept as sets: [lost_servers] is the list of a
    Python set, and no caller depends on the order of the other two. *)
Record destructive_app := DestructiveApp {
  app_name : string;
  existing_servers : gset string;
  lost_servers : gset string;
  remaining_servers : gset string
}.

#[global] Instance destructive_app_eqdec : EqDecision destructive_app.
Proof. solve_decision. Defined.

(** The [servers] mapping read off an existing document: router, extract,
    [.get('servers', {})]. *)
Definition extracted_servers (existing_config : json) : option json :=
  h ← detect_config_format existing_config;
  existing_mcp_config ← extract_mcp_config h existing_config;
  Py.get "servers" empty_dict existing_mcp_config.

(** Body of the loop of [check_destructive_operations] for one target:
    [Some None] when the target adds no entry. *)
Definition destructive_entry (f : fsys) (source_servers : json)
    (target : string * path) : option (option destructive_app) :=
  let '(name, config_path) := target in
  if negb (path_exists f config_path) then Some None
  else
    let existing_config := load_existing_config f config_path in
    if decide (existing_config = JNull) then Some None
    else
      servers ← extracted_servers existing_config;
      if Py.truthy servers then
        n ← Py.len servers;
        k ← Py.len source_servers;
        if decide (k < n) then
          existing_names ← Py.keys servers;
          source_names ← Py.keys source_servers;
          let lost := existing_names ∖ source_names in
          if decide (lost ≠ ∅)
          then Some (Some (DestructiveApp name existing_names lost source_names))
          else Some None
        else Some None
      else Some None.

Definition check_destructive_operations (st : synchronizer)
  : option (list destructive_app) :=
  source_servers ← Py.get "servers" empty_dict (config st);
  entries ← mapM (destructive_entry (fs st) source_servers) (CONFIG_FILES st);
  Some (omap id entries).

(** The [action] strings of a sync result. *)
Inductive action :=
| Created | Updated | Skipped | Failed | Cancelled.

#[global] Instance action_eqdec : EqDecision action.
Proof. solve_decision. Defined.

(** One value of the dict [update_configs] returns.  [path], [size] and the
    text of [error] and [reason] are left out; [format] is the handler
    whose name the code records on success. *)
Record sync_result := SyncResult {
  success : bool;
  sync_action : action;
  sync_format : option handler
}.

#[global] Instance sync_result_eqdec : EqDecision sync_result.
Proof. solve_decision. Defined.

Definition cancelled_result : sync_result := SyncResult false Cancelled None.
Definition skipped_result : sync_result := SyncResult false Skipped None.
Definition failed_result : sync_result := SyncResult false Failed None.

(** Body of the [try] in the loop of [update_configs] for one target; any
    exception of the merge or of the write lands in the [except] branch
    and the file keeps its content. *)
Definition update_one (cfg : json) (f : fsys) (target : string * path)
  : sync_result * fsys :=
  let '(name, config_path) := target in
  let existing_config := load_existing_config f config_path in
  if decide (existing_config = JNull) then (skipped_result, f)
  else
    let file_existed := path_exists f config_path in
    let h := get_app_handler name in
    match merge_mcp_config h existing_config cfg ≫= write_file f config_path with
    | Some f' =>
        (SyncResult true (if file_existed then Updated else Created) (Some h), f')
    | None => (failed_result, f)
    end.

(** The write loop: [results[app_name] = ...] target after target. *)
Fixpoint update_all (cfg : json) (targets : list (string * path))
    (results : gmap string sync_result) (f : fsys)
  : gmap string sync_result * fsys :=
  match targets with
  | [] => (results, f)
  | t :: rest =>
      let '(r, f') := update_one cfg f t in
      update_all cfg rest (<[t.1 := r]> results) f'
  end.

(** The dict comprehension of the cancelled branch. *)
Definition cancelled_results (targets : list (string * path))
  : gmap string sync_result :=
  list_to_map ((λ t, (t.1, cancelled_result)) <$> targets).

(** [update_configs(custom_config, force)].  [confirm] is the operator's
    answer in [prompt_user_confirmation], asked only when destructive
    entries exist and [force] is off.  [custom_config = None] is [JNull]. *)
Definition update_configs (confirm : list destructive_app → bool)
    (custom_config : json) (force : bool) (st : synchronizer)
  : option (gmap string sync_result * synchronizer) :=
  st1 ← ensure_directories st;
  cfg ← (if Py.truthy custom_config
         then merge_configs (config st1) custom_config
         else Some (config st1));
  let st2 := set_config cfg st1 in
  destructive_apps ← check_destructive_operations st2;
  if bool_decide (destructive_apps ≠ []) && negb force
     && negb (confirm destructive_apps)
  then Some (cancelled_results (CONFIG_FILES st2), st2)
  else
    let '(results, f) := update_all cfg (CONFIG_FILES st2) ∅ (fs st2) in
    Some (results, set_fs f st2).

(** One value of the dict [validate_configs] returns. *)
Record validation_result := ValidationResult {
  in_sync : bool;
  reason : option string;
  mismatched_keys : list string;
  validation_format : option handler
}.

#[global] Instance validation_result_eqdec : EqDecision validation_result.
Proof. solve_decision. Defined.

(** [check_nested_dict(ref_dict, app_dict, path)]: the list of mismatch
    labels it appends.  The keys are visited in the order of the map, not
    in Python's insertion order, so only the set of labels is meaningful;
    [!=] on leaves is difference of JSON values, which is finer than
    Python's where [True == 1]: a leaf found equal here is equal there. *)
Fixpoint check_nested_dict (ref_dict : json) (app_dict : json) (prefix : string)
    {struct ref_dict} : option (list string) :=
  match ref_dict with
  | JObj r =>
      map_fold (λ key ref_value (acc : option (list string)),
          found ← acc;
          if decide (key = "format") then Some found
          else
            present ← Py.contains key app_dict;
            if negb present then Some (found ++ [prefix +:+ key +:+ " (missing)"])
            else
              app_value ← Py.getitem key app_dict;
              match ref_value, app_value with
              | JObj _, JObj _ =>
                  inner ← check_nested_dict ref_value app_value
                             (prefix +:+ key +:+ ".");
                  Some (found ++ inner)
              | _, _ =>
                  if decide (ref_value = app_value) then Some found
                  else Some (found ++ [prefix +:+ key +:+ " (value mismatch)"])
              end)
        (Some []) r
  | _ => None
  end.

(** [c.get('servers', {}) if isinstance(c, dict) and 'servers' in c else {}]. *)
Definition servers_or_empty (c : json) : json :=
  match c with
  | JObj m => default empty_dict (m !! "servers")
  | _ => empty_dict
  end.

(** Body of the loop of [validate_configs] for one target. *)
Definition validate_one (reference_config : json) (f : fsys)
    (config_path : path) : option validation_result :=
  if negb (path_exists f config_path)
  then Some (ValidationResult false (Some "missing") [] None)
  else
    let cfg := load_existing_config f config_path in
    if decide (cfg = JNull)
    then Some (ValidationResult false (Some "parse_error") [] None)
    else
      h ← detect_config_format cfg;
      mcp_config ← extract_mcp_config h cfg;
      if decide (h = ClaudeDesktopHandler) then
        let ref_servers := servers_or_empty reference_config in
        let app_servers := servers_or_empty mcp_config in
        if negb (Py.truthy ref_servers) && Py.truthy reference_config
        then Some (ValidationResult true (Some "format_mismatch_skip") [] None)
        else if decide (app_servers = ref_servers)
        then Some (ValidationResult true None [] (Some h))
        else Some (ValidationResult false (Some "mismatch")
                     ["servers (content mismatch)"] (Some h))
      else
        found ← check_nested_dict reference_config mcp_config "";
        match found with
        | [] => Some (ValidationResult true None [] (Some h))
        | _ => Some (ValidationResult false (Some "mismatch") found (Some h))
        end.

Fixpoint validate_all (reference_config : json) (f : fsys)
    (targets : list (string * path)) (all_in_sync : bool)
    (results : gmap string validation_result)
  : option (bool * gmap string validation_result) :=
  match targets with
  | [] => Some (all_in_sync, results)
  | (name, config_path) :: rest =>
      r ← validate_one reference_config f config_path;
      validate_all reference_config f rest (all_in_sync && in_sync r)
        (<[name := r]> results)
  end.

(** [validate_configs(reference_config)]; [None] ([JNull]) stands for
    [self.config]. *)
Definition validate_configs (reference_config : json) (st : synchronizer)
  : option (bool * gmap string validation_result) :=
  let reference :=
    if decide (reference_config = JNull) then config st else reference_config in
  validate_all reference (fs st) (CONFIG_FILES st) true ∅.

(** The overall status [print_report] derives and returns. *)
Inductive status := SUCCESS | PARTIAL_SUCCESS | FAILED.

#[global] Instance status_eqdec : EqDecision status.
Proof. solve_decision. Defined.

Definition print_report (sync_results : gmap string sync_result)
    (validation_results : gmap string validation_result) : status :=
  let all_success := bool_decide (map_Forall (λ _ r, success r = true) sync_results) in
  let all_in_sync :=
    bool_decide (map_Forall (λ _ r, in_sync r = true) validation_results) in
  if all_success && all_in_sync then SUCCESS
  else if all_success then PARTIAL_SUCCESS else FAILED.

(** [self.CONFIG_FILES[name]] when [name in self.CONFIG_FILES]. *)
Definition config_file (st : synchronizer) (name : string) : option path :=
  (λ r, r.2.2) <$> list_find (λ t, t.1 = name) (CONFIG_FILES st).

(** The source path [sync_from_file] reads. *)
Definition source_path (st : synchronizer) (app_name_or_path : string) : path :=
  default (Path app_name_or_path) (config_file st app_name_or_path).

(** [sync_from_file(app_name_or_path, force)]: the returned flag and the
    synchronizer afterwards. *)
Definition sync_from_file (confirm : list destructive_app → bool)
    (app_name_or_path : string) (force : bool) (st : synchronizer)
  : option (bool * synchronizer) :=
  let src := source_path st app_name_or_path in
  if negb (path_exists (fs st) src) then Some (false, st)
  else
    let source_config := load_existing_config (fs st) src in
    if decide (source_config = JNull) then Some (false, st)
    else
      h ← detect_config_format source_config;
      mcp_config ← extract_mcp_config h source_config;
      if negb (Py.truthy mcp_config) then Some (false, st)
      else
        '(sync_results, st2) ← update_configs confirm JNull force
                                  (set_config mcp_config st);
        '(_, validation_results) ← validate_configs JNull st2;
        Some (bool_decide (print_report sync_results validation_results = SUCCESS),
              st2).

(** ** The watcher's debounce table

    Time is a count of ticks.  A [threading.Timer] started at [now] with
    delay [d] is the record of its deadline [now + d] and of its [file_path]
    argument; its [source_app] argument is the key it is stored under.  A
    timer is live exactly while it sits in [pending_syncs], since [cancel]
    is only called on the entry about to be replaced and the callback
    removes the entry of its own app.  Handlers run one at a time, as under
    [self.lock]; the interleaving of threads inside one handler is not
    modelled.  The callback of a timer is not one step under the lock: it
    calls [sync_from_file] first and drops its entry only afterwards, so
    its two parts are separate steps, and an event can be handled between
    them.  [sync_calls] logs the calls of [synchronizer.sync_from_file]
    made by timers, oldest first. *)

Record timer := Timer {
  deadline : nat;
  timer_path : path
}.

#[global] Instance timer_eqdec : EqDecision timer.
Proof. solve_decision. Defined.

Record watcher := Watcher {
  debounce_delay : nat;
  pending_syncs : gmap string timer;
  sync_calls : list string
}.

#[global] Instance watcher_eqdec : EqDecision watcher.
Proof. solve_decision. Defined.

Definition _is_sync_in_progress (w : watcher) (name : string) : bool :=
  bool_decide (is_Some (pending_syncs w !! name)).

(** [_schedule_sync]: cancelling the timer found under [source_app] and
    storing the new one is one overwrite of the entry. *)
Definition _schedule_sync (now : nat) (source_app : string) (file_path : path)
    (w : watcher) : watcher :=
  Watcher (debounce_delay w)
    (<[source_app := Timer (now + debounce_delay w) file_path]>
       (pending_syncs w))
    (sync_calls w).

(** The loop of [on_modified] over [CONFIG_FILES]: the first app whose
    config file is the modified file; without links [samefile] is equality
    of paths. *)
Definition find_source_app (st : synchronizer) (file_path : path) : option string :=
  (λ r, r.2.1) <$>
  list_find (λ t, path_exists (fs st) file_path = true
                  ∧ path_exists (fs st) t.2 = true ∧ file_path = t.2)
    (CONFIG_FILES st).

(** [on_modified(event)] at time [now]. *)
Definition on_modified (st : synchronizer) (now : nat) (is_directory : bool)
    (src_path : string) (w : watcher) : watcher :=
  if is_directory then w
  else
    let file_path := Path src_path in
    match find_source_app st file_path with
    | Some source_app =>
        if bool_decide (source_app = "") then w
        else if _is_sync_in_progress w source_app then w
        else _schedule_sync now source_app file_path w
    | None => w
    end.

(** The [try] block of [_execute_sync], the timer's callback: the call of
    [sync_from_file].  The entry of [source_app] is still in
    [pending_syncs] while the sync runs, so an event handled meanwhile
    meets the guard of [on_modified]. *)
Definition _execute_sync_try (source_app : string) (w : watcher) : watcher :=
  Watcher (debounce_delay w) (pending_syncs w) (sync_calls w ++ [source_app]).

(** The [finally] clause of [_execute_sync], reached whatever the sync did:
    [self.pending_syncs.pop(source_app, None)]. *)
Definition _execute_sync_finally (source_app : string) (w : watcher) : watcher :=
  Watcher (debounce_delay w) (delete source_app (pending_syncs w)) (sync_calls w).

(** [_execute_sync] from its start to its return, with no event handled
    in between. *)
Definition _execute_sync (source_app : string) (w : watcher) : watcher :=
  _execute_sync_finally source_app (_execute_sync_try source_app w).

(** The timers due at [now] fire and their callbacks return: the state
    once the syncs they started are over. *)
Definition fire_due (now : nat) (w : watcher) : watcher :=
  map_fold (λ name t acc,
      if decide (deadline t ≤ now) then _execute_sync name acc else acc)
    w (pending_syncs w).

(** A run of the watcher over modification events [(time, src_path)] in
    order of arrival, for events that are handled while no sync is
    running: the callbacks of the timers due by the time of an event have
    returned before it is handled.  An event handled while a sync runs is
    [on_modified] on the state [_execute_sync_try] leaves. *)
Fixpoint run_events (st : synchronizer) (events : list (nat * string))
    (w : watcher) : watcher :=
  match events with
  | [] => w
  | (now, src_path) :: rest =>
      run_events st rest (on_modified st now false src_path (fire_due now w))
  end.

(** Number of syncs the watcher has started for [name]. *)
Definition syncs_of (name : string) (w : watcher) : nat :=
  length (filter (λ a, a = name) (sync_calls w)).

(** What every entry of the write loop's mapping looks like. *)
Definition well_formed_result (name : string) (r : sync_result) : Prop :=
  sync_action r ≠ Cancelled
  ∧ (success r = true ↔ sync_action r = Created ∨ sync_action r = Updated)
  ∧ (success r = true → sync_format r = Some (get_app_handler name)).

(** Number of constructors of a JSON value, the measure for inductions
    over nested documents. *)
Fixpoint jsize (j : json) : nat :=
  match j with
  | JArr l => S (foldr (λ x n, jsize x + n) 0 l)
  | JObj m => S (map_fold (λ _ x n, jsize x + n) 0 m)
  | _ => 1
  end.

(** The config [sync_from_file] extracts from its source: router, then
    the routed handler's [extract_mcp_config]. *)
Definition extracted_config (st : synchronizer) (app_name_or_path : string)
  : option json :=
  let source_config :=
    load_existing_config (fs st) (source_path st app_name_or_path) in
  h ← detect_config_format source_config;
  extract_mcp_config h source_config.

(** ** Installed applications

    The class attribute [CONFIG_FILES] and its filtering in [__init__];
    [home] is [Path.home()]. *)

Definition application_support (home : path) : path :=
  home ++ ["Library"; "Application Support"].

Definition ALL_CONFIG_FILES (home : path) : list (string * path) :=
  [("Cursor", home ++ [".cursor"; "mcp.json"]);
   ("Windsurf", home ++ [".codeium"; "windsurf"; "mcp_config.json"]);
   ("Roocode-VSCode",
    application_support home
    ++ ["Code"; "User"; "globalStorage"; "rooveterinaryinc.roo-cline";
        "settings"; "cline_mcp_settings.json"]);
   ("Roocode-Windsurf",
    application_support home
    ++ ["Windsurf - Next"; "User"; "globalStorage";
        "rooveterinaryinc.roo-cline"; "settings"; "mcp_settings.json"]);
   ("Claude",
    application_support home ++ ["Claude"; "claude_desktop_config.json"]);
   ("VSCode", application_support home ++ ["Code"; "User"; "settings.json"])].

(** [needle in s] for two strings. *)
Definition str_contains (needle s : string) : bool :=
  bool_decide (is_Some (String.index 0 needle s)).

(** The [app_dir] that the chain of tests in [_filter_installed_apps]
    assigns to an entry; [None] when no branch assigns one. *)
Definition app_dir (home : path) (entry : string * path) : option path :=
  let '(name, config_path) := entry in
  if decide (name = "Claude") then Some (parent config_path)
  else if decide (name = "VSCode") then Some (parent (parent config_path))
  else if decide (name = "Cursor") then Some (parent config_path)
  else if decide (name = "Windsurf") then Some (parent (parent config_path))
  else if String.prefix "Roocode" name then
    if str_contains "VSCode" name then Some (application_support home ++ ["Code"])
    else if str_contains "Windsurf" name
    then Some (application_support home ++ ["Windsurf - Next"])
    else None
  else None.

(** [if app_dir and app_dir.exists()]. *)
Definition installed (home : path) (f : fsys) (entry : string * path) : bool :=
  match app_dir home entry with
  | Some d => path_exists f d
  | None => false
  end.

(** [_filter_installed_apps]: the entries kept, in the order of the
    table. *)
Definition _filter_installed_apps (home : path) (f : fsys)
  : list (string * path) :=
  filter (λ entry, installed home f entry = true) (ALL_CONFIG_FILES home).

(** [MCPConfigSynchronizer()]: default config, installed targets. *)
Definition __init__ (home : path) (f : fsys) : synchronizer :=
  Synchronizer DEFAULT_MCP_CONFIG (_filter_installed_apps home f) f.

(** ** The daemon's watch list *)

(** [watch_apps or list(synchronizer.CONFIG_FILES.keys())]. *)
Definition daemon_watch_apps (st : synchronizer) (watch_apps : list string)
  : list string :=
  match watch_apps with
  | [] => (CONFIG_FILES st).*1
  | _ => watch_apps
  end.

(** The loop of [MCPSyncDaemon.start] that sets up the watchers: the
    directories passed to [observer.schedule], in order; [watched_paths]
    is the set built alongside. *)
Fixpoint schedule_watches (st : synchronizer) (watch_apps : list string)
    (watched_paths : gset path) : list path :=
  match watch_apps with
  | [] => []
  | name :: rest =>
      match config_file st name with
      | Some config_path =>
          let watch_dir := parent config_path in
          if decide (watch_dir ∈ watched_paths)
          then schedule_watches st rest watched_paths
          else watch_dir :: schedule_watches st rest ({[watch_dir]} ∪ watched_paths)
      | None => schedule_watches st rest watched_paths
      end
  end.

(** The directories a daemon created with [watch_apps] observes. *)
Definition daemon_watch_dirs (st : synchronizer) (watch_apps : list string)
  : list path :=
  schedule_watches st (daemon_watch_apps st watch_apps) ∅.

(** ** Concrete configurations used to exercise the model *)

Module Scenario.

Definition server (command : string) : json :=
  JObj {["command" := JStr command]}.

Definition cursor_path : path := ["home"; ".cursor"; "mcp.json"].
Definition windsurf_path : path :=
  ["home"; ".codeium"; "windsurf"; "mcp_config.json"].
Definition claude_path : path :=
  ["home"; "Library"; "Application Support"; "Claude";
   "claude_desktop_config.json"].

(** The operator's two possible answers. *)
Definition decline (_ : list destructive_app) : bool := false.
Definition accept (_ : list destructive_app) : bool := true.

(** Canonical config [{"servers": {"a": ...}}]. *)
Definition one_server : json := JObj {["servers" := JObj {["a" := server "npx"]}]}.

(** A Windsurf file in the [mcpServers] dialect, holding one server
    [b]. *)
Definition windsurf_only : synchronizer :=
  Synchronizer one_server [("Windsurf", windsurf_path)]
    (Fsys {[windsurf_path := Doc (JObj {["mcpServers" := JObj {["b" := server "uvx"]}]})]}
       ∅ ∅).

(** A Cursor file that does not parse next to a Claude file with one
    server, and an empty canonical config: syncing would drop that
    server. *)
Definition broken_cursor : synchronizer :=
  Synchronizer DEFAULT_MCP_CONFIG
    [("Cursor", cursor_path); ("Claude", claude_path)]
    (Fsys {[cursor_path := Malformed;
            claude_path := Doc (JObj {["mcpServers" := JObj {["a" := server "npx"]}]})]}
       ∅ ∅).

(** Canonical [{a}] against a Claude file with [{a, b}] and a Cursor file
    with [{c}]. *)
Definition two_targets : synchronizer :=
  Synchronizer one_server
    [("Claude", claude_path); ("Cursor", cursor_path)]
    (Fsys {[claude_path :=
              Doc (JObj {["mcpServers" :=
                            JObj {["a" := server "npx"; "b" := server "uvx"]}]});
            cursor_path :=
              Doc (JObj {["mcp" := JObj {["servers" := JObj {["c" := server "node"]}]}]})]}
       ∅ ∅).

(** A synchronizer once [ensure_directories] has run: the parent of every
    target and its ancestors are directories. *)
Definition with_dirs (st : synchronizer) : synchronizer :=
  set_fs (Fsys (files (fs st))
            (dirs (fs st)
             ∪ list_to_set (CONFIG_FILES st ≫= λ t, ancestors (parent t.2)))
            (readonly (fs st))) st.

(** [windsurf_only] after [update_configs]: the Standard handler has added
    an [mcp] entry next to [mcpServers]. *)
Definition windsurf_written : synchronizer :=
  set_fs (Fsys {[windsurf_path :=
                   Doc (JObj {["mcpServers" := JObj {["b" := server "uvx"]};
                               "mcp" := one_server]})]}
            (dirs (fs (with_dirs windsurf_only))) ∅) windsurf_only.

(** [broken_cursor] after an [update_configs] the operator accepted: the
    Claude file holds the empty canonical server map, the Cursor file is
    as it was. *)
Definition broken_cursor_written : synchronizer :=
  set_fs (Fsys {[cursor_path := Malformed;
                 claude_path := Doc (JObj {["mcpServers" := empty_dict]})]}
            (dirs (fs (with_dirs broken_cursor))) ∅) broken_cursor.

(** No file at all. *)
Definition nothing_installed : synchronizer :=
  Synchronizer DEFAULT_MCP_CONFIG [("Cursor", cursor_path)] (Fsys ∅ ∅ ∅).

(** A watcher with a window of [delay] ticks and nothing pending. *)
Definition idle (delay : nat) : watcher := Watcher delay ∅ [].

Definition cursor_src : string := "/home/.cursor/mcp.json".

(** The Cursor file exists and is watched. *)
Definition cursor_watched : synchronizer :=
  Synchronizer DEFAULT_MCP_CONFIG [("Cursor", cursor_path)]
    (Fsys {[cursor_path := Doc empty_dict]} ∅ ∅).

(** A VSCode settings file with an unrelated setting and no [mcp] entry. *)
Definition vscode_path : path :=
  ["home"; "Library"; "Application Support"; "Code"; "User"; "settings.json"].

Definition vscode_settings : synchronizer :=
  Synchronizer one_server [("VSCode", vscode_path)]
    (Fsys {[vscode_path := Doc (JObj {["editor.fontSize" := JNum 14]})]} ∅ ∅).

(** [vscode_settings] after [update_configs]. *)
Definition vscode_settings_written : synchronizer :=
  set_fs (Fsys {[vscode_path :=
                   Doc (JObj {["editor.fontSize" := JNum 14;
                               "mcp" := JObj {["servers" := JObj {["a" := server "npx"]};
                                               "inputs" := empty_list]}]})]}
            (dirs (fs (with_dirs vscode_settings))) ∅) vscode_settings.

(** The mapping [update_configs] returns for [vscode_settings]. *)
Definition vscode_settings_results : gmap string sync_result :=
  {["VSCode" := SyncResult true Updated (Some VSCodeHandler)]}.

(** A Windsurf file whose [mcp] entry is a string. *)
Definition windsurf_mcp_string : synchronizer :=
  Synchronizer one_server [("Windsurf", windsurf_path)]
    (Fsys {[windsurf_path := Doc (JObj {["mcp" := JStr "off"]})]} ∅ ∅).

(** The verdicts of [validate_configs] on [broken_cursor_written]. *)
Definition broken_cursor_verdicts : gmap string validation_result :=
  {["Cursor" := ValidationResult false (Some "parse_error") [] None;
    "Claude" := ValidationResult true (Some "format_mismatch_skip") [] None]}.

(** A lone Claude Desktop target with one server. *)
Definition claude_only : synchronizer :=
  Synchronizer DEFAULT_MCP_CONFIG [("Claude", claude_path)]
    (Fsys {[claude_path := Doc (JObj {["mcpServers" := JObj {["a" := server "npx"]}]})]}
       ∅ ∅).

(** [claude_only] after [sync_from_file("Claude")]. *)
Definition claude_only_synced : synchronizer :=
  set_config (JObj (normalized "claude_desktop" (JObj {["a" := server "npx"]})))
    (with_dirs claude_only).

(** What the router's handler extracts from the Cursor file of
    [two_targets]. *)
Definition cursor_extracted : json :=
  JObj (<["inputs" := empty_list]>
          (normalized "vscode" (JObj {["c" := server "node"]}))).

End Scenario.

(** * Properties *)

(** ** Router *)

Lemma first_match_cons (h : handler) (rest : list handler) (j : json) :
  first_match (h :: rest) j
  = detect_format h j ≫= λ b : bool, if b then Some h else first_match rest j.
Proof. reflexivity. Qed.

(** The Cursor probe implies the Claude probe, which the router tries
    first: no document is ever routed to the Cursor handler. *)
Lemma detect_config_format_never_cursor (j : json) :
  detect_config_format j ≠ Some CursorHandler.
Proof.
  unfold detect_config_format, FORMAT_HANDLERS.
  rewrite !first_match_cons. cbn [detect_format first_match].
  destruct (Py.contains "mcpServers" j) as [[]|]; cbn; [done| |done].
  destruct (Py.contains "mcp" j) as [[]|]; cbn; [|done|done].
  destruct (mcp_is_dict j) as [[]|]; cbn; [|done|done].
  destruct (Py.getitem "mcp" j ≫= Py.contains "servers") as [[]|]; cbn; done.
Qed.

(** C1 (as the code has it): a document with an [mcpServers] key and a
    dict-valued [mcp] key satisfies the Cursor handler's own probe, yet
    [detect_config_format] returns the Claude Desktop handler, which
    stands first in [FORMAT_HANDLERS]. *)
Theorem detect_config_format_cursor_shape
    (m : gmap string json) (s : json) (sec : gmap string json) :
  m !! "mcpServers" = Some s →
  m !! "mcp" = Some (JObj sec) →
  detect_format CursorHandler (JObj m) = Some true
  ∧ detect_config_format (JObj m) = Some ClaudeDesktopHandler.
Proof.
  intros Hs Hmcp. split.
  - cbn. rewrite Hs, Hmcp. reflexivity.
  - unfold detect_config_format, FORMAT_HANDLERS. rewrite first_match_cons.
    cbn. rewrite Hs. reflexivity.
Qed.

(** The smallest document of that shape. *)
Lemma detect_config_format_cursor_shape_witness :
  detect_format CursorHandler
    (JObj {["mcpServers" := empty_dict; "mcp" := empty_dict]}) = Some true
  ∧ detect_config_format
      (JObj {["mcpServers" := empty_dict; "mcp" := empty_dict]})
    = Some ClaudeDesktopHandler.
Proof.
  apply (detect_config_format_cursor_shape _ empty_dict ∅); reflexivity.
Defined.

(** ** Handlers' merge *)

Lemma vscode_merge_shape (existing : gmap string json) (c : json) :
  match merge_mcp_dict VSCodeHandler existing c with
  | Some out =>
      ∃ sec, out = <["mcp" := JObj sec]> existing
  | None => ∃ v, existing !! "mcp" = Some v ∧ Py.is_dict v = false
  end.
Proof.
  cbn. destruct (existing !! "mcp") as [v|] eqn:Hmcp.
  - rewrite Hmcp. destruct v; eauto.
  - rewrite lookup_insert_eq. cbn. rewrite insert_insert_eq. eauto.
Qed.

(** C9: whatever handler, document and canonical config, a top-level key
    outside the handler's MCP keys has in the merged document the value
    (or the absence) it had in the input; the only merge that produces no
    document is VSCode's on an input whose [mcp] entry is not a dict,
    where the item assignment raises. *)
Theorem merge_preserves_unrelated_keys
    (h : handler) (existing : gmap string json) (mcp_config : json) (k : string) :
  k ∉ mcp_keys h →
  match merge_mcp_dict h existing mcp_config with
  | Some out =>
      out !! k = existing !! k
      ∧ merge_mcp_config h (JObj existing) mcp_config = Some (JObj out)
  | None =>
      h = VSCodeHandler
      ∧ ∃ v, existing !! "mcp" = Some v ∧ Py.is_dict v = false
  end.
Proof.
  intros Hk. destruct h.
  - cbn in *. split; [|done]. apply lookup_insert_ne. set_solver.
  - cbn in *. split; [|done]. apply lookup_insert_ne. set_solver.
  - pose proof (vscode_merge_shape existing mcp_config) as Hs.
    cbn [merge_mcp_config]. 
    destruct (merge_mcp_dict VSCodeHandler existing mcp_config) as [out|].
    + destruct Hs as [sec ->]. split; [|done].
      apply lookup_insert_ne. cbn in Hk. set_solver.
    + split; [done|exact Hs].
  - cbn in *. split; [|done].
    rewrite lookup_delete_ne by set_solver. apply lookup_insert_ne. set_solver.
  - cbn in *. split; [|done]. apply lookup_insert_ne. set_solver.
Qed.

(** A VSCode settings file with an unrelated key and no [mcp] entry. *)
Lemma merge_preserves_unrelated_keys_witness :
  match merge_mcp_dict VSCodeHandler {["editor.fontSize" := JNum 14]}
          (JObj {["servers" := empty_dict]}) with
  | Some out =>
      out !! "editor.fontSize"
      = ({["editor.fontSize" := JNum 14]} : gmap string json) !! "editor.fontSize"
      ∧ merge_mcp_config VSCodeHandler (JObj {["editor.fontSize" := JNum 14]})
          (JObj {["servers" := empty_dict]}) = Some (JObj out)
  | None =>
      VSCodeHandler = VSCodeHandler
      ∧ ∃ v, ({["editor.fontSize" := JNum 14]} : gmap string json) !! "mcp" = Some v
             ∧ Py.is_dict v = false
  end.
Proof.
  apply (merge_preserves_unrelated_keys VSCodeHandler
           {["editor.fontSize" := JNum 14]} (JObj {["servers" := empty_dict]})
           "editor.fontSize").
  compute_done.
Defined.

(** ** [merge_configs] *)

(** What one key of the result of [deep_merge] holds, when the call
    returns: a key of the overlay whose value is a dict and that the base
    has too holds the recursive merge of the two values; any other key of
    the overlay holds the overlay's value; the rest is the base's. *)
Lemma deep_merge_lookup (m1 m2 : gmap string json) (r : json) :
  deep_merge (JObj m1) (JObj m2) = Some r →
  ∃ mr, r = JObj mr ∧ ∀ k,
    mr !! k =
    match m2 !! k with
    | None => m1 !! k
    | Some v =>
        match v, m1 !! k with
        | JObj _, Some old => deep_merge old v
        | _, _ => Some v
        end
    end
    ∧ (is_Some (m2 !! k) → is_Some (mr !! k)).
Proof.
  cbn [deep_merge]. intros Hr.
  apply fmap_Some in Hr as (mr & Hfold & ->). exists mr. split; [done|].
  revert mr Hfold.
  match goal with
  | |- ∀ mr, map_fold ?f ?b m2 = Some mr → _ =>
      apply (map_fold_weak_ind
               (λ acc m, ∀ mr, acc = Some mr → ∀ k,
                  mr !! k =
                  match m !! k with
                  | None => m1 !! k
                  | Some v =>
                      match v, m1 !! k with
                      | JObj _, Some old => deep_merge old v
                      | _, _ => Some v
                      end
                  end
                  ∧ (is_Some (m !! k) → is_Some (mr !! k))) f b)
  end.
  - intros mr [= <-] k. rewrite lookup_empty. split; [done|].
    by intros [? ?].
  - intros i x m acc Hi IH mr Hstep k.
    destruct acc as [d|]; [|done]. cbn in Hstep.
    specialize (IH d eq_refl).
    assert (d !! i = m1 !! i) as Hdi by (by rewrite (proj1 (IH i)), Hi).
    destruct (decide (i = k)) as [->|Hne].
    + rewrite lookup_insert_eq. rewrite Hdi in Hstep.
      destruct x; try (injection Hstep as <-; rewrite lookup_insert_eq;
                       by destruct (m1 !! k)).
      destruct (m1 !! k) as [old|].
      * apply bind_Some in Hstep as (merged & Hm & [= <-]).
        rewrite lookup_insert_eq. by rewrite Hm.
      * injection Hstep as <-. by rewrite lookup_insert_eq.
    + rewrite lookup_insert_ne by done. destruct (IH k) as [IH1 IH2].
      rewrite <- IH1.
      destruct x, (d !! i);
        try (injection Hstep as <-; by rewrite lookup_insert_ne).
      apply bind_Some in Hstep as (merged & Hm & [= <-]).
      by rewrite lookup_insert_ne.
Qed.

(** When the base holds a non-dict under a key whose overlay value is a
    non-empty dict, the merge raises. *)
Lemma deep_merge_raises (m1 m2 mv : gmap string json) (k : string) (old : json) :
  m2 !! k = Some (JObj mv) → mv ≠ ∅ →
  m1 !! k = Some old → Py.is_dict old = false →
  deep_merge (JObj m1) (JObj m2) = None.
Proof.
  intros H2 Hmv H1 Hold.
  destruct (deep_merge (JObj m1) (JObj m2)) as [r|] eqn:Hr; [|done].
  apply deep_merge_lookup in Hr as (mr & -> & Hk).
  destruct (Hk k) as [Hk1 Hk2]. rewrite H2, H1 in Hk1.
  destruct Hk2 as [x Hx]; [by rewrite H2|]. rewrite Hx in Hk1.
  destruct old; try done; cbn in Hk1;
    rewrite bool_decide_eq_false_2 in Hk1 by done; done.
Qed.

(** C8 (as the code has it): with base [{"a": 1}], an overlay
    [{"a": {"b": 2}}] makes [merge_configs] raise instead of letting the
    overlay's value win, and an overlay [{"a": {}}] leaves the base's [1]
    in place. *)
Theorem merge_configs_dict_over_scalar :
  merge_configs (JObj {["a" := JNum 1]}) (JObj {["a" := JObj {["b" := JNum 2]}]})
  = None
  ∧ merge_configs (JObj {["a" := JNum 1]}) (JObj {["a" := empty_dict]})
    = Some (JObj {["a" := JNum 1]}).
Proof. split; compute_done. Qed.

(** ** Destructive-change detection *)

(** The condition under which the loop of [check_destructive_operations]
    adds the entry [r] for the target [(name, config_path)]: the file
    exists and loads, its extracted server mapping [s] is non-empty and
    larger than the canonical one, and some of its names are not
    canonical. *)
Definition reported_for (f : fsys) (src : gmap string json)
    (target : string * path) (r : destructive_app) : Prop :=
  ∃ s : gmap string json,
    path_exists f target.2 = true
    ∧ load_existing_config f target.2 ≠ JNull
    ∧ extracted_servers (load_existing_config f target.2) = Some (JObj s)
    ∧ s ≠ ∅
    ∧ size src < size s
    ∧ dom s ∖ dom src ≠ ∅
    ∧ r = DestructiveApp target.1 (dom s) (dom s ∖ dom src) (dom src).

(** A target whose extracted servers, if it has a readable file, are a
    mapping. *)
Definition servers_is_mapping (f : fsys) (target : string * path) : Prop :=
  path_exists f target.2 = true →
  load_existing_config f target.2 ≠ JNull →
  ∃ s, extracted_servers (load_existing_config f target.2) = Some (JObj s).

Lemma truthy_dict (s : gmap string json) : Py.truthy (JObj s) = true ↔ s ≠ ∅.
Proof. cbn. by rewrite bool_decide_eq_true. Qed.

Lemma destructive_entry_spec (f : fsys) (src : gmap string json)
    (target : string * path) :
  servers_is_mapping f target →
  ∃ e, destructive_entry f (JObj src) target = Some e
       ∧ ∀ r, e = Some r ↔ reported_for f src target r.
Proof.
  intros Hmap. destruct target as [name p]. unfold destructive_entry, reported_for.
  unfold servers_is_mapping in Hmap. cbn [fst snd] in *.
  destruct (path_exists f p) eqn:Hex; cbn [negb].
  2:{ exists None. split; [done|]. intros r. split; [done|].
      intros (s & ? & _). done. }
  destruct (decide (load_existing_config f p = JNull)) as [Hnull|Hnull].
  { exists None. split; [done|]. intros r. split; [done|].
    intros (s & _ & ? & _). done. }
  destruct (Hmap eq_refl Hnull) as [s Hs]. rewrite Hs. cbn [mbind option_bind].
  destruct (Py.truthy (JObj s)) eqn:Ht.
  2:{ exists None. split; [done|]. intros r. split; [done|].
      intros (s' & _ & _ & Hs' & Hne & _). simplify_eq.
      apply truthy_dict in Hne. congruence. }
  apply truthy_dict in Ht. cbn.
  destruct (decide (size src < size s)) as [Hlt|Hlt].
  2:{ exists None. split; [done|]. intros r. split; [done|].
      intros (s' & _ & _ & Hs' & _ & ? & _). simplify_eq. }
  destruct (decide (dom s ∖ dom src ≠ ∅)) as [Hlost|Hlost].
  2:{ exists None. split; [done|]. intros r. split; [done|].
      intros (s' & _ & _ & Hs' & _ & _ & ? & _). simplify_eq. }
  eexists. split; [done|]. intros r. split.
  - intros [= <-]. exists s. done.
  - intros (s' & _ & _ & Hs' & _ & _ & _ & ->). by simplify_eq.
Qed.

(** C7: when the canonical config is a dict whose [servers] is a mapping
    [src] (the default being [{}]) and the extracted servers of every
    readable target are a mapping, [check_destructive_operations] returns,
    and its entries are exactly those of the targets whose file exists and
    parses and whose server mapping is non-empty, strictly larger than
    [src] and has names outside [src]; the entry lists these names as
    lost.  A target with as many servers as [src] has no entry, whatever
    its names. *)
Theorem check_destructive_operations_exact
    (st : synchronizer) (src : gmap string json) :
  Py.get "servers" empty_dict (config st) = Some (JObj src) →
  Forall (servers_is_mapping (fs st)) (CONFIG_FILES st) →
  ∃ reports,
    check_destructive_operations st = Some reports
    ∧ (∀ r, r ∈ reports ↔
            ∃ target, target ∈ CONFIG_FILES st ∧ reported_for (fs st) src target r)
    ∧ (∀ target s r,
          target ∈ CONFIG_FILES st →
          extracted_servers (load_existing_config (fs st) target.2) = Some (JObj s) →
          size s = size src →
          ¬ reported_for (fs st) src target r).
Proof.
  intros Hsrc Hall. unfold check_destructive_operations. rewrite Hsrc.
  cbn [mbind option_bind].
  assert (∃ entries,
             mapM (destructive_entry (fs st) (JObj src)) (CONFIG_FILES st)
             = Some entries
             ∧ Forall2 (λ t e, ∀ r, e = Some r ↔ reported_for (fs st) src t r)
                 (CONFIG_FILES st) entries) as (entries & Hm & Hrel).
  { induction Hall as [|t ts Ht _ IH].
    - exists []. split; [done|constructor].
    - destruct IH as (es & Hes & Hrel).
      destruct (destructive_entry_spec (fs st) src t Ht) as (e & He & Hspec).
      exists (e :: es). split; [|by constructor].
      apply mapM_Some. constructor; [done|]. by apply mapM_Some. }
  rewrite Hm. exists (omap id entries). split; [done|]. split.
  - intros r. rewrite list_elem_of_omap. split.
    + intros (e & He & Hid). cbn in Hid. subst e.
      apply list_elem_of_lookup in He as [i Hi].
      destruct (Forall2_lookup_r _ _ _ _ _ Hrel Hi) as (t & Ht & Hspec).
      exists t. split; [by eapply list_elem_of_lookup_2|]. by apply Hspec.
    + intros (t & Ht & Hrep).
      apply list_elem_of_lookup in Ht as [i Hi].
      destruct (Forall2_lookup_l _ _ _ _ _ Hrel Hi) as (e & He & Hspec).
      exists e. split; [by eapply list_elem_of_lookup_2|].
      cbn. by apply Hspec.
  - intros t s r _ Hs Hsize (s' & _ & _ & Hs' & _ & Hlt & _).
    simplify_eq. lia.
Qed.

(** ** Directories *)

Lemma ancestors_self (d : path) : d ∈ ancestors d.
Proof.
  unfold ancestors. apply list_elem_of_fmap. exists (length d). split.
  - by rewrite firstn_all.
  - apply elem_of_seq. lia.
Qed.

Lemma mkdir_parents_spec (f f' : fsys) (d : path) :
  mkdir_parents f d = Some f' →
  files f' = files f ∧ readonly f' = readonly f
  ∧ dirs f ⊆ dirs f' ∧ d ∈ dirs f'.
Proof.
  unfold mkdir_parents. case_bool_decide; [|done].
  intros Heq. apply (inj Some) in Heq. subst f'.
  cbn [files dirs readonly]. split_and!; [done|done|set_solver|].
  rewrite elem_of_union, elem_of_list_to_set. right. apply ancestors_self.
Qed.

Lemma ensure_dirs_spec (targets : list (string * path)) (f f' : fsys) :
  ensure_dirs targets f = Some f' →
  files f' = files f ∧ readonly f' = readonly f
  ∧ dirs f ⊆ dirs f'
  ∧ ∀ target, target ∈ targets → parent target.2 ∈ dirs f'.
Proof.
  revert f. induction targets as [|[name p] rest IH]; intros f; cbn.
  - intros [= <-]. split_and!; [done..|]. by intros ? ?%elem_of_nil.
  - intros (f1 & H1 & Hrest)%bind_Some.
    apply mkdir_parents_spec in H1 as (Hf & Hr & Hd & Hp).
    apply IH in Hrest as (Hf' & Hr' & Hd' & Hall).
    split_and!; [congruence|congruence|by etrans|].
    intros t [->|Ht]%elem_of_cons; [by apply Hd'|by apply Hall].
Qed.

(** The write loop leaves directories and refused paths as they are. *)
Lemma update_one_dirs (cfg : json) (f : fsys) (t : string * path) :
  dirs (update_one cfg f t).2 = dirs f
  ∧ readonly (update_one cfg f t).2 = readonly f.
Proof.
  destruct t as [name p]. unfold update_one.
  destruct (decide _); [done|].
  destruct (merge_mcp_config _ _ _ ≫= write_file f p) as [f'|] eqn:Hw; [|done].
  apply bind_Some in Hw as (j & _ & Hw). unfold write_file in Hw.
  destruct (_ || _); [done|]. by injection Hw as <-.
Qed.

Lemma update_all_dirs (cfg : json) (targets : list (string * path))
    (results : gmap string sync_result) (f : fsys) :
  dirs (update_all cfg targets results f).2 = dirs f
  ∧ readonly (update_all cfg targets results f).2 = readonly f.
Proof.
  revert results f. induction targets as [|t rest IH]; intros results f; [done|].
  cbn [update_all]. pose proof (update_one_dirs cfg f t) as [Hd Hr].
  destruct (update_one cfg f t) as [r f']. cbn in *.
  destruct (IH (<[t.1 := r]> results) f') as [-> ->]. done.
Qed.

(** C10: whenever [update_configs] returns, the directories are those
    [ensure_directories] left at its very start, and they include the
    parent directory of every target's config file; this covers the run
    the operator cancels, in which no file is written. *)
Theorem update_configs_ensures_directories
    (confirm : list destructive_app → bool) (custom_config : json)
    (force : bool) (st st' : synchronizer)
    (results : gmap string sync_result) :
  update_configs confirm custom_config force st = Some (results, st') →
  (∃ st1, ensure_directories st = Some st1 ∧ dirs (fs st') = dirs (fs st1))
  ∧ (∀ target, target ∈ CONFIG_FILES st → parent target.2 ∈ dirs (fs st')).
Proof.
  unfold update_configs. intros (st1 & H1 & Hrest)%bind_Some.
  apply bind_Some in Hrest as (cfg & _ & Hrest).
  apply bind_Some in Hrest as (ds & _ & Hrest).
  pose proof H1 as Hens. unfold ensure_directories in H1.
  apply bind_Some in H1 as (f1 & Hf1 & [= <-]).
  apply ensure_dirs_spec in Hf1 as (Hfiles & _ & _ & Hpar). cbn in Hrest.
  destruct (_ && _) eqn:Hcancel.
  - injection Hrest as <- <-. cbn. split; eauto.
  - pose proof (update_all_dirs cfg (CONFIG_FILES st) ∅ f1) as [Hd _].
    destruct (update_all cfg (CONFIG_FILES st) ∅ f1) as [res f2] eqn:Hupd.
    injection Hrest as <- <-. cbn in *. split.
    + exists (set_fs f1 st). split; [done|]. by cbn.
    + intros t Ht. rewrite Hd. by apply Hpar.
Qed.

(** ** Cancellation *)

Lemma cancelled_results_lookup (targets : list (string * path))
    (target : string * path) :
  target ∈ targets →
  cancelled_results targets !! target.1 = Some cancelled_result.
Proof.
  unfold cancelled_results. induction targets as [|t rest IH]; [by intros ?%elem_of_nil|].
  intros Hin. rewrite fmap_cons, list_to_map_cons. cbn [fst].
  destruct (decide (t.1 = target.1)) as [->|Hne].
  - by rewrite lookup_insert_eq.
  - rewrite lookup_insert_ne by done. apply IH.
    apply elem_of_cons in Hin as [->|]; done.
Qed.

(** C4: when [update_configs], after creating the directories and merging
    the custom config, finds destructive entries, [force] is off and the
    operator declines, it returns a mapping in which every target has
    [success = False] and [action = 'cancelled'], and the regular files
    are those it started with. *)
Theorem update_configs_cancelled
    (confirm : list destructive_app → bool) (custom_config : json)
    (st st1 : synchronizer) (cfg : json) (destructive_apps : list destructive_app) :
  ensure_directories st = Some st1 →
  (if Py.truthy custom_config
   then merge_configs (config st1) custom_config
   else Some (config st1)) = Some cfg →
  check_destructive_operations (set_config cfg st1) = Some destructive_apps →
  destructive_apps ≠ [] →
  confirm destructive_apps = false →
  ∃ results st',
    update_configs confirm custom_config false st = Some (results, st')
    ∧ files (fs st') = files (fs st)
    ∧ ∀ target, target ∈ CONFIG_FILES st →
        results !! target.1 = Some (SyncResult false Cancelled None).
Proof.
  intros Hens Hcfg Hchk Hne Hno. unfold update_configs.
  rewrite Hens. cbn [mbind option_bind]. rewrite Hcfg. cbn [mbind option_bind].
  rewrite Hchk. cbn [mbind option_bind]. rewrite Hno.
  rewrite bool_decide_eq_true_2 by done. cbn [negb andb].
  eexists _, _. split; [done|].
  unfold ensure_directories in Hens.
  apply bind_Some in Hens as (f1 & Hf1 & [= <-]).
  apply ensure_dirs_spec in Hf1 as (Hfiles & _). cbn. split; [done|].
  intros t Ht. by apply cancelled_results_lookup.
Qed.

(** ** Targets that do not parse *)

Lemma load_null_mono (f f' : fsys) (p : path) :
  files f' = files f → dirs f ⊆ dirs f' →
  load_existing_config f p = JNull → load_existing_config f' p = JNull.
Proof.
  unfold load_existing_config. intros Hf Hd. rewrite Hf.
  destruct (bool_decide (p ∈ dirs f)) eqn:Hp.
  - apply bool_decide_eq_true in Hp. intros _.
    rewrite bool_decide_eq_true_2; [done|by apply Hd].
  - intros Hl. destruct (bool_decide (p ∈ dirs f')); [done|exact Hl].
Qed.

Lemma update_one_keeps_null (cfg : json) (f : fsys) (t : string * path) (p : path) :
  load_existing_config f p = JNull →
  load_existing_config (update_one cfg f t).2 p = JNull
  ∧ files (update_one cfg f t).2 !! p = files f !! p.
Proof.
  intros Hnull. destruct t as [name q]. unfold update_one.
  destruct (decide (load_existing_config f q = JNull)) as [|Hq]; [done|].
  assert (q ≠ p) as Hne by congruence.
  destruct (merge_mcp_config _ _ _ ≫= write_file f q) as [f'|] eqn:Hw; [|done].
  apply bind_Some in Hw as (j & _ & Hw). unfold write_file in Hw.
  destruct (_ || _); [done|]. apply (inj Some) in Hw. subst f'. cbn [snd].
  unfold load_existing_config in *. cbn [files dirs].
  by rewrite lookup_insert_ne.
Qed.

Lemma update_all_keeps_null (cfg : json) (targets : list (string * path))
    (results : gmap string sync_result) (f : fsys) (p : path) :
  load_existing_config f p = JNull →
  files (update_all cfg targets results f).2 !! p = files f !! p.
Proof.
  revert results f. induction targets as [|t rest IH]; intros results f Hnull; [done|].
  cbn [update_all]. destruct (update_one_keeps_null cfg f t p Hnull) as [Hl Hf].
  destruct (update_one cfg f t) as [r f']. cbn [snd] in *.
  by rewrite IH.
Qed.

Lemma update_all_lookup_other (cfg : json) (targets : list (string * path))
    (results : gmap string sync_result) (f : fsys) (name : string) :
  name ∉ targets.*1 →
  (update_all cfg targets results f).1 !! name = results !! name.
Proof.
  revert results f. induction targets as [|t rest IH]; intros results f Hnot; [done|].
  cbn [update_all]. destruct (update_one cfg f t) as [r f'].
  rewrite fmap_cons, not_elem_of_cons in Hnot. destruct Hnot as [Hne Hnot].
  rewrite IH by done. by rewrite lookup_insert_ne.
Qed.

Lemma update_all_skipped (cfg : json) (targets : list (string * path))
    (results : gmap string sync_result) (f : fsys) (target : string * path) :
  NoDup targets.*1 → target ∈ targets →
  load_existing_config f target.2 = JNull →
  (update_all cfg targets results f).1 !! target.1 = Some skipped_result.
Proof.
  revert results f. induction targets as [|t rest IH]; intros results f Hnd Hin Hnull.
  { by apply elem_of_nil in Hin. }
  rewrite fmap_cons in Hnd. apply NoDup_cons in Hnd as [Hfresh Hnd].
  cbn [update_all].
  destruct (update_one_keeps_null cfg f t target.2 Hnull) as [Hl _].
  apply elem_of_cons in Hin as [->|Hin].
  - destruct t as [name q]. cbn [fst snd] in *. unfold update_one in *.
    destruct (decide _); [|done].
    rewrite update_all_lookup_other by done. by rewrite lookup_insert_eq.
  - destruct (update_one cfg f t) as [r f']. cbn [snd] in Hl. by apply IH.
Qed.

(** C5: [load_existing_config] returns [{}] for a path that does not exist
    and Python's [None], which is not [{}], for a malformed file; a run of
    [update_configs] that returns leaves the file of a target that loads as
    [None] untouched, and its loop over the targets records that target as
    a skipped failure.  The only runs that return without entering the loop
    are the cancelled ones: [force] is off and the operator declined a
    non-empty list of destructive entries. *)
Theorem parse_error_target_not_written :
  (∀ f p, path_exists f p = false → load_existing_config f p = empty_dict)
  ∧ (∀ f p, files f !! p = Some Malformed →
            load_existing_config f p = JNull ∧ JNull ≠ empty_dict)
  ∧ (∀ confirm custom_config force st st' results target,
        update_configs confirm custom_config force st = Some (results, st') →
        NoDup (CONFIG_FILES st).*1 →
        target ∈ CONFIG_FILES st →
        load_existing_config (fs st) target.2 = JNull →
        files (fs st') !! target.2 = files (fs st) !! target.2
        ∧ (results !! target.1 = Some (SyncResult false Skipped None)
           ∨ (results = cancelled_results (CONFIG_FILES st)
              ∧ force = false
              ∧ ∃ destructive_apps,
                  destructive_apps ≠ [] ∧ confirm destructive_apps = false))).
Proof.
  split_and!.
  - intros f p. unfold path_exists, load_existing_config.
    intros [H1 H2]%orb_false_iff. rewrite H2.
    apply bool_decide_eq_false in H1.
    destruct (files f !! p) eqn:Hp; [|done]. destruct H1. eauto.
  - intros f p Hp. split; [|done]. unfold load_existing_config. rewrite Hp.
    by case_bool_decide.
  - intros confirm custom force st st' results target Hrun Hnd Hin Hnull.
    unfold update_configs in Hrun.
    apply bind_Some in Hrun as (st1 & H1 & Hrun).
    apply bind_Some in Hrun as (cfg & _ & Hrun).
    apply bind_Some in Hrun as (ds & _ & Hrun).
    unfold ensure_directories in H1.
    apply bind_Some in H1 as (f1 & Hf1 & [= <-]).
    apply ensure_dirs_spec in Hf1 as (Hfiles & _ & Hdirs & _). cbn in Hrun.
    assert (load_existing_config f1 target.2 = JNull) as Hnull1
      by (by eapply load_null_mono).
    destruct (_ && _) eqn:Hgate.
    + injection Hrun as <- <-. cbn. rewrite Hfiles. split; [done|]. right.
      apply andb_true_iff in Hgate as [[Hds Hforce]%andb_true_iff Hconfirm].
      apply bool_decide_eq_true in Hds. apply negb_true_iff in Hforce, Hconfirm.
      split_and!; [done|done|by exists ds].
    + pose proof (update_all_keeps_null cfg (CONFIG_FILES st) ∅ f1 _ Hnull1) as Hk.
      pose proof (update_all_skipped cfg (CONFIG_FILES st) ∅ f1 _ Hnd Hin Hnull1)
        as Hs.
      destruct (update_all cfg (CONFIG_FILES st) ∅ f1) as [res f2].
      injection Hrun as <- <-. cbn in *. rewrite Hk, Hfiles. auto.
Qed.

(** ** Sources that cannot be used *)

(** C6: when the source path does not exist, or loads as Python's [None],
    or its extracted MCP config is falsy (empty), [sync_from_file] returns
    [False] and the synchronizer, canonical config and file system alike,
    is what it was. *)
Theorem sync_from_file_bad_source
    (confirm : list destructive_app → bool) (app_name_or_path : string)
    (force : bool) (st : synchronizer) :
  path_exists (fs st) (source_path st app_name_or_path) = false
  ∨ load_existing_config (fs st) (source_path st app_name_or_path) = JNull
  ∨ (∃ h mcp_config,
        detect_config_format
          (load_existing_config (fs st) (source_path st app_name_or_path)) = Some h
        ∧ extract_mcp_config h
            (load_existing_config (fs st) (source_path st app_name_or_path))
          = Some mcp_config
        ∧ Py.truthy mcp_config = false) →
  sync_from_file confirm app_name_or_path force st = Some (false, st).
Proof.
  unfold sync_from_file. intros [Hex|[Hnull|(h & c & Hh & Hc & Ht)]].
  - by rewrite Hex.
  - rewrite Hnull. destruct (path_exists _ _); [|done]. cbn [negb].
    by destruct (decide (JNull = JNull)).
  - destruct (path_exists _ _); [|done]. cbn [negb].
    destruct (decide _); [done|].
    rewrite Hh. cbn [mbind option_bind]. rewrite Hc. cbn [mbind option_bind].
    by rewrite Ht.
Qed.

(** ** Validation after a write *)

(** A file as the Claude Desktop handler writes it validates in sync
    against the canonical config it was written from, whatever else the
    file holds. *)
Lemma validate_after_claude_merge (c existing : gmap string json)
    (f : fsys) (p : path) :
  path_exists f p = true →
  load_existing_config f p
  = JObj (<["mcpServers" := servers_to_write (JObj c)]> existing) →
  ∃ r, validate_one (JObj c) f p = Some r ∧ in_sync r = true.
Proof.
  intros Hex Hload. unfold validate_one. rewrite Hex, Hload. cbn [negb].
  destruct (decide _) as [|_]; [done|].
  unfold detect_config_format, FORMAT_HANDLERS. rewrite first_match_cons.
  cbn [detect_format Py.contains]. rewrite lookup_insert_eq.
  rewrite bool_decide_eq_true_2 by eauto. cbn [mbind option_bind].
  cbn [extract_mcp_config Py.get]. rewrite lookup_insert_eq.
  cbn [default mbind option_bind]. unfold id.
  destruct (decide (ClaudeDesktopHandler = ClaudeDesktopHandler)) as [_|?]; [|done].
  assert (servers_or_empty (JObj (normalized "claude_desktop"
                                    (servers_to_write (JObj c))))
          = servers_to_write (JObj c)) as ->.
  { unfold servers_or_empty, normalized. by rewrite lookup_insert_eq. }
  destruct (negb _ && _) eqn:Hskip; [by eexists|].
  destruct (decide (servers_to_write (JObj c) = servers_or_empty (JObj c)))
    as [|Hne]; [by eexists|].
  exfalso. apply Hne. unfold servers_or_empty, servers_to_write in *.
  destruct (c !! "servers") as [s|] eqn:Hs; [done|].
  cbn in Hskip. apply bool_decide_eq_false in Hskip.
  apply dec_stable in Hskip. subst c. by rewrite lookup_empty.
Qed.

(** ** Debouncing *)

Lemma syncs_of_execute (name source_app : string) (w : watcher) :
  syncs_of name (_execute_sync source_app w)
  = syncs_of name w + (if decide (source_app = name) then 1 else 0).
Proof.
  unfold syncs_of, _execute_sync, _execute_sync_finally, _execute_sync_try.
  cbn [sync_calls].
  rewrite filter_app, length_app. f_equal.
  rewrite filter_cons, filter_nil. by destruct (decide (source_app = name)).
Qed.

(** Firing the due timers removes exactly their entries and starts one
    sync for each of them. *)
Lemma fire_due_spec (now : nat) (w : watcher) :
  debounce_delay (fire_due now w) = debounce_delay w
  ∧ (∀ k, pending_syncs (fire_due now w) !! k
          = match pending_syncs w !! k with
            | Some t => if decide (deadline t ≤ now) then None else Some t
            | None => None
            end)
  ∧ (∀ k, syncs_of k (fire_due now w)
          = syncs_of k w
            + match pending_syncs w !! k with
              | Some t => if decide (deadline t ≤ now) then 1 else 0
              | None => 0
              end).
Proof.
  unfold fire_due.
  pose (P := λ (acc : watcher) (m : gmap string timer),
     debounce_delay acc = debounce_delay w
     ∧ (∀ k, pending_syncs acc !! k
             = match m !! k with
               | Some t => if decide (deadline t ≤ now) then None
                           else pending_syncs w !! k
               | None => pending_syncs w !! k
               end)
     ∧ (∀ k, syncs_of k acc
             = syncs_of k w
               + match m !! k with
                 | Some t => if decide (deadline t ≤ now) then 1 else 0
                 | None => 0
                 end)).
  assert (P (map_fold (λ name t acc,
               if decide (deadline t ≤ now) then _execute_sync name acc else acc)
             w (pending_syncs w)) (pending_syncs w)) as (Hd & Hp & Hs).
  { apply (map_fold_weak_ind P).
    - split_and!; [done|by intros k; rewrite lookup_empty|].
      intros k. rewrite lookup_empty. lia.
    - intros i x m acc Hi (Hd & Hp & Hs). split_and!.
      + by destruct (decide (deadline x ≤ now)).
      + intros k. destruct (decide (i = k)) as [->|Hne].
        * rewrite lookup_insert_eq. destruct (decide (deadline x ≤ now)).
          -- cbn. by rewrite lookup_delete_eq.
          -- by rewrite Hp, Hi.
        * rewrite lookup_insert_ne by done. rewrite <- Hp.
          destruct (decide (deadline x ≤ now)); [|done].
          cbn. by rewrite lookup_delete_ne.
      + intros k. destruct (decide (i = k)) as [->|Hne].
        * rewrite lookup_insert_eq. destruct (decide (deadline x ≤ now)).
          -- rewrite syncs_of_execute, Hs, Hi. rewrite decide_True by done. lia.
          -- by rewrite Hs, Hi.
        * rewrite lookup_insert_ne by done. rewrite <- Hs.
          destruct (decide (deadline x ≤ now)); [|done].
          rewrite syncs_of_execute. rewrite decide_False by done. lia. }
  split_and!; [done| |done].
  intros k. rewrite Hp. by destruct (pending_syncs w !! k).
Qed.

Section Debounce.

(** The synchronizer the handlers look the modified file up in, and the
    app whose config file the events are for. *)
Context (st : synchronizer) (name : string).

(** An event for an app with a pending timer changes nothing. *)
Lemma on_modified_pending (now : nat) (src_path : string)
    (t : timer) (w : watcher) :
  find_source_app st (Path src_path) = Some name →
  pending_syncs w !! name = Some t →
  on_modified st now false src_path w = w.
Proof.
  intros Hfind Hpend. unfold on_modified, _is_sync_in_progress.
  rewrite Hfind, Hpend. case_bool_decide; [done|].
  by rewrite bool_decide_eq_true_2 by eauto.
Qed.

Lemma run_events_pending (t : timer)
    (events : list (nat * string)) (w : watcher) :
  pending_syncs w !! name = Some t →
  Forall (λ e, e.1 < deadline t ∧ find_source_app st (Path e.2) = Some name) events →
  pending_syncs (run_events st events w) !! name = Some t
  ∧ syncs_of name (run_events st events w) = syncs_of name w.
Proof.
  revert w. induction events as [|[now src] rest IH]; intros w Hpend Hall; [done|].
  apply Forall_cons in Hall as [[Hlt Hfind] Hall]. cbn [fst snd] in *.
  cbn [run_events].
  destruct (fire_due_spec now w) as (_ & Hp & Hs).
  assert (pending_syncs (fire_due now w) !! name = Some t) as Hpend'.
  { rewrite Hp, Hpend. rewrite decide_False by lia. done. }
  rewrite (on_modified_pending now src t) by done.
  destruct (IH (fire_due now w) Hpend' Hall) as [-> ->].
  split; [done|]. rewrite Hs, Hpend. rewrite decide_False by lia. lia.
Qed.

(** C3 (as the code has it): starting with no pending timer for the app,
    a burst of modification events for its config file, all arriving
    before the timer started by the first event is due, leaves that first
    timer pending, with the deadline and the path of the first event:
    the later events are dropped by the guard of [on_modified].  No sync
    has started by then, and once the deadline has passed exactly one has,
    and the app is idle again. *)
Theorem debounce_first_event_wins (w : watcher)
    (t1 : nat) (src1 : string) (rest : list (nat * string)) (horizon : nat) :
  name ≠ "" →
  pending_syncs w !! name = None →
  find_source_app st (Path src1) = Some name →
  Forall (λ e, e.1 < t1 + debounce_delay w
               ∧ find_source_app st (Path e.2) = Some name) rest →
  t1 + debounce_delay w ≤ horizon →
  let w' := run_events st ((t1, src1) :: rest) w in
  pending_syncs w' !! name = Some (Timer (t1 + debounce_delay w) (Path src1))
  ∧ syncs_of name w' = syncs_of name w
  ∧ syncs_of name (fire_due horizon w') = S (syncs_of name w)
  ∧ pending_syncs (fire_due horizon w') !! name = None.
Proof.
  intros Hname Hidle Hfind Hrest Hhor. cbn [run_events].
  destruct (fire_due_spec t1 w) as (Hd & Hp & Hs).
  set (w1 := on_modified st t1 false src1 (fire_due t1 w)).
  assert (w1 = _schedule_sync t1 name (Path src1) (fire_due t1 w)) as Hw1.
  { unfold w1, on_modified, _is_sync_in_progress. rewrite Hfind.
    rewrite bool_decide_eq_false_2 by done.
    rewrite Hp, Hidle. by rewrite bool_decide_eq_false_2 by (by intros [? ?]). }
  assert (pending_syncs w1 !! name
          = Some (Timer (t1 + debounce_delay w) (Path src1))) as Hpend.
  { rewrite Hw1. unfold _schedule_sync. cbn [pending_syncs].
    by rewrite lookup_insert_eq, Hd. }
  assert (syncs_of name w1 = syncs_of name w) as Hcalls.
  { rewrite Hw1. transitivity (syncs_of name (fire_due t1 w)); [done|].
    rewrite Hs, Hidle. lia. }
  destruct (run_events_pending _ rest w1 Hpend Hrest) as [Hp' Hs'].
  split_and!; [done|congruence| |].
  - destruct (fire_due_spec horizon (run_events st rest w1)) as (_ & _ & Hs2).
    rewrite Hs2, Hp', Hs', Hcalls. cbn [deadline].
    rewrite decide_True by lia. lia.
  - destruct (fire_due_spec horizon (run_events st rest w1)) as (_ & Hp2 & _).
    rewrite Hp2, Hp'. cbn [deadline]. by rewrite decide_True by lia.
Qed.

End Debounce.

(** Called on its own, [_schedule_sync] does replace a pending timer by
    one with a fresh deadline; [on_modified] never calls it in that
    state. *)
Lemma _schedule_sync_resets (now : nat) (name : string) (file_path : path)
    (w : watcher) :
  pending_syncs (_schedule_sync now name file_path w) !! name
  = Some (Timer (now + debounce_delay w) file_path).
Proof. unfold _schedule_sync. cbn. by rewrite lookup_insert_eq. Qed.

(** ** The properties on concrete configurations *)

Import Scenario.

(** C2 (as the code has it): with canonical [{"servers": {"a": ...}}] and
    a Windsurf file [{"mcpServers": {"b": ...}}], [update_configs] runs
    without cancellation and records a successful update of the Windsurf
    target, and the following [validate_configs] routes the written file to
    the Claude Desktop handler and reports the target as not in sync. *)
Theorem validation_fails_after_successful_write :
  update_configs decline JNull false windsurf_only
  = Some ({["Windsurf" := SyncResult true Updated (Some StandardMCPHandler)]},
          windsurf_written)
  ∧ detect_config_format
      (load_existing_config (fs windsurf_written) windsurf_path)
    = Some ClaudeDesktopHandler
  ∧ validate_configs JNull windsurf_written
    = Some (false,
            {["Windsurf" :=
                ValidationResult false (Some "mismatch")
                  ["servers (content mismatch)"] (Some ClaudeDesktopHandler)]}).
Proof. split_and!; compute_done. Qed.

(** The file written in that run satisfies the Cursor handler's probe, and
    read through the Cursor handler it shows no mismatch with the canonical
    config: the verdict above comes from the handler the router picks. *)
Example cursor_handler_reads_back :
  detect_format CursorHandler
    (load_existing_config (fs windsurf_written) windsurf_path) = Some true
  ∧ (mcp_config ← extract_mcp_config CursorHandler
                     (load_existing_config (fs windsurf_written) windsurf_path);
     check_nested_dict one_server mcp_config "") = Some [].
Proof. split; compute_done. Qed.

(** The entry computed for the Claude target of [two_targets]: server [b]
    would be lost; the Cursor target, with one server of another name,
    has none. *)
Example check_destructive_two_targets :
  check_destructive_operations two_targets
  = Some [DestructiveApp "Claude" {["a"; "b"]} {["b"]} {["a"]}].
Proof. compute_done. Qed.

(** The detection theorem at [two_targets]. *)
Lemma check_destructive_operations_exact_witness :
  ∃ reports,
    check_destructive_operations two_targets = Some reports
    ∧ (∀ r, r ∈ reports ↔
            ∃ target, target ∈ CONFIG_FILES two_targets
                      ∧ reported_for (fs two_targets) {["a" := server "npx"]} target r)
    ∧ (∀ target s r,
          target ∈ CONFIG_FILES two_targets →
          extracted_servers (load_existing_config (fs two_targets) target.2)
          = Some (JObj s) →
          size s = size ({["a" := server "npx"]} : gmap string json) →
          ¬ reported_for (fs two_targets) {["a" := server "npx"]} target r).
Proof.
  apply (check_destructive_operations_exact two_targets {["a" := server "npx"]}).
  - compute_done.
  - repeat constructor; intros _ _.
    + exists {["a" := server "npx"; "b" := server "uvx"]}. compute_done.
    + exists {["c" := server "node"]}. compute_done.
Defined.

(** The operator declines the sync of [broken_cursor]. *)
Lemma update_configs_cancelled_witness :
  ∃ results st',
    update_configs decline JNull false broken_cursor = Some (results, st')
    ∧ files (fs st') = files (fs broken_cursor)
    ∧ ∀ target, target ∈ CONFIG_FILES broken_cursor →
        results !! target.1 = Some (SyncResult false Cancelled None).
Proof.
  apply (update_configs_cancelled decline JNull broken_cursor
           (with_dirs broken_cursor) DEFAULT_MCP_CONFIG
           [DestructiveApp "Claude" {["a"]} {["a"]} ∅]).
  - compute_done.
  - compute_done.
  - compute_done.
  - discriminate.
  - reflexivity.
Defined.

(** The same cancelled run leaves the directories of both targets in
    place. *)
Lemma update_configs_ensures_directories_witness :
  update_configs decline JNull false broken_cursor
  = Some (cancelled_results (CONFIG_FILES broken_cursor), with_dirs broken_cursor)
  ∧ (∃ st1, ensure_directories broken_cursor = Some st1
            ∧ dirs (fs (with_dirs broken_cursor)) = dirs (fs st1))
  ∧ (∀ target, target ∈ CONFIG_FILES broken_cursor →
               parent target.2 ∈ dirs (fs (with_dirs broken_cursor))).
Proof.
  assert (update_configs decline JNull false broken_cursor
          = Some (cancelled_results (CONFIG_FILES broken_cursor),
                  with_dirs broken_cursor)) as Hrun
    by compute_done.
  split; [exact Hrun|].
  exact (update_configs_ensures_directories decline JNull false broken_cursor
           (with_dirs broken_cursor)
           (cancelled_results (CONFIG_FILES broken_cursor)) Hrun).
Defined.

(** The operator accepts the sync of [broken_cursor]: the Cursor target is
    skipped and its file kept. *)
Lemma parse_error_target_not_written_witness :
  files (fs broken_cursor_written) !! cursor_path
  = files (fs broken_cursor) !! cursor_path
  ∧ (({["Cursor" := SyncResult false Skipped None;
        "Claude" := SyncResult true Updated (Some ClaudeDesktopHandler)]}
      : gmap string sync_result) !! "Cursor"
     = Some (SyncResult false Skipped None)
     ∨ (({["Cursor" := SyncResult false Skipped None;
           "Claude" := SyncResult true Updated (Some ClaudeDesktopHandler)]}
         : gmap string sync_result)
        = cancelled_results (CONFIG_FILES broken_cursor)
        ∧ false = false
        ∧ ∃ destructive_apps,
            destructive_apps ≠ [] ∧ accept destructive_apps = false)).
Proof.
  apply (proj2 (proj2 parse_error_target_not_written) accept JNull false
           broken_cursor broken_cursor_written
           {["Cursor" := SyncResult false Skipped None;
             "Claude" := SyncResult true Updated (Some ClaudeDesktopHandler)]}
           ("Cursor", cursor_path)).
  - compute_done.
  - compute_done.
  - compute_done.
  - compute_done.
Defined.

(** Syncing from a Cursor file that does not exist. *)
Lemma sync_from_file_bad_source_witness :
  sync_from_file decline "Cursor" false nothing_installed
  = Some (false, nothing_installed).
Proof.
  apply (sync_from_file_bad_source decline "Cursor" false nothing_installed).
  left. compute_done.
Defined.

(** C3 as stated fails: with a window of 2 ticks, a second event one tick
    after the first is dropped and the pending timer keeps the deadline 2
    of the first event instead of being restarted with deadline 3; and with
    a window of 3 ticks, events at ticks 0, 2 and 4, each within the window
    of the one before, start two syncs, not one. *)
Lemma debounce_window_not_reset :
  pending_syncs (run_events cursor_watched [(0, cursor_src); (1, cursor_src)] (idle 2))
    !! "Cursor" = Some (Timer 2 cursor_path)
  ∧ pending_syncs (run_events cursor_watched [(0, cursor_src); (1, cursor_src)] (idle 2))
      !! "Cursor" ≠ Some (Timer (1 + 2) cursor_path)
  ∧ on_modified cursor_watched 1 false cursor_src
      (run_events cursor_watched [(0, cursor_src)] (idle 2))
    = run_events cursor_watched [(0, cursor_src)] (idle 2)
  ∧ syncs_of "Cursor"
      (fire_due 10
         (run_events cursor_watched
            [(0, cursor_src); (2, cursor_src); (4, cursor_src)] (idle 3)))
    = 2.
Proof.
  split_and!; compute_done.
Qed.

(** Two events one tick apart with a window of two ticks. *)
Lemma debounce_first_event_wins_witness :
  let w' := run_events cursor_watched [(0, cursor_src); (1, cursor_src)] (idle 2) in
  pending_syncs w' !! "Cursor" = Some (Timer (0 + 2) (Path cursor_src))
  ∧ syncs_of "Cursor" w' = syncs_of "Cursor" (idle 2)
  ∧ syncs_of "Cursor" (fire_due 2 w') = S (syncs_of "Cursor" (idle 2))
  ∧ pending_syncs (fire_due 2 w') !! "Cursor" = None.
Proof.
  apply (debounce_first_event_wins cursor_watched "Cursor" (idle 2) 0 cursor_src
           [(1, cursor_src)] 2).
  - discriminate.
  - reflexivity.
  - compute_done.
  - repeat constructor; compute_done.
  - compute_done.
Defined.

(** * Further properties of the handlers and the router *)

Set Warnings "-clear-no-such-hyp".

(** The handler the router picks for a JSON object, test by test. *)
Lemma first_match_object (m : gmap string json) :
  first_match FORMAT_HANDLERS (JObj m)
  = Some (if bool_decide (is_Some (m !! "mcpServers")) then ClaudeDesktopHandler
          else match m !! "mcp" with
               | Some (JObj sec) =>
                   if bool_decide (is_Some (sec !! "servers"))
                   then VSCodeHandler else StandardMCPHandler
               | Some _ => StandardMCPHandler
               | None => LegacyMCPHandler
               end).
Proof.
  unfold FORMAT_HANDLERS. rewrite !first_match_cons. cbn.
  destruct (m !! "mcpServers") as [s|]; cbn; [done|].
  destruct (m !! "mcp") as [[| | | | |sec]|]; cbn; try done.
  by destruct (sec !! "servers").
Qed.

(** On a JSON object the router never raises, and the handler it picks
    is decided by three tests: an [mcpServers] key gives Claude Desktop;
    otherwise a dict [mcp] with a [servers] key gives VSCode; otherwise
    any [mcp] key gives Standard; otherwise Legacy. *)
Theorem detect_config_format_object (m : gmap string json) :
  detect_config_format (JObj m)
  = Some (if bool_decide (is_Some (m !! "mcpServers")) then ClaudeDesktopHandler
          else match m !! "mcp" with
               | Some (JObj sec) =>
                   if bool_decide (is_Some (sec !! "servers"))
                   then VSCodeHandler else StandardMCPHandler
               | Some _ => StandardMCPHandler
               | None => LegacyMCPHandler
               end).
Proof.
  unfold detect_config_format, FORMAT_HANDLERS.
  rewrite !first_match_cons. cbn.
  destruct (m !! "mcpServers") as [s|]; cbn; [done|].
  destruct (m !! "mcp") as [[| | | | |sec]|]; cbn; try done.
  by destruct (sec !! "servers").
Qed.

(** The router raises on the documents [null], [true], [false] and on
    numbers: the first probe tests membership in a value that is not a
    container. *)
Theorem detect_config_format_scalar (j : json) :
  Py.len j = None →
  detect_config_format j = None.
Proof. by destruct j. Qed.

Lemma detect_config_format_scalar_witness :
  detect_config_format (JNum 42) = None.
Proof. apply (detect_config_format_scalar (JNum 42)). reflexivity. Defined.

(** The [mcp] section VSCode's merge writes, key by key. *)
Lemma vscode_section_lookup (sec : gmap string json) (mcp_config : json)
    (k : string) :
  vscode_section sec mcp_config !! k
  = if decide (k = "servers") then Some (servers_to_write mcp_config)
    else if decide (k = "inputs") then Some (inputs_to_write sec mcp_config)
    else sec !! k.
Proof.
  unfold vscode_section, inputs_to_write.
  set (sec1 := <["servers" := servers_to_write mcp_config]> sec).
  assert (∀ sec2 : gmap string json,
            sec2 !! "servers" = Some (servers_to_write mcp_config) →
            (∀ k, k ≠ "servers" → k ≠ "inputs" → sec2 !! k = sec !! k) →
            match sec2 !! "inputs" with
            | Some _ => sec2
            | None => <["inputs" := empty_list]> sec2
            end !! k
            = if decide (k = "servers") then Some (servers_to_write mcp_config)
              else if decide (k = "inputs")
                   then Some (default empty_list (sec2 !! "inputs"))
                   else sec !! k) as Hfin.
  { intros sec2 Hsrv Hoth. destruct (decide (k = "servers")) as [->|Hk1].
    - destruct (sec2 !! "inputs"); [done|]. by rewrite lookup_insert_ne.
    - destruct (decide (k = "inputs")) as [->|Hk2].
      + destruct (sec2 !! "inputs") eqn:Hi; [by rewrite Hi|].
        by rewrite lookup_insert_eq.
      + destruct (sec2 !! "inputs"); [by apply Hoth|].
        rewrite lookup_insert_ne by done. by apply Hoth. }
  assert (sec1 !! "servers" = Some (servers_to_write mcp_config)) as H1
    by apply lookup_insert_eq.
  assert (∀ k, k ≠ "servers" → k ≠ "inputs" → sec1 !! k = sec !! k) as H2
    by (intros; by apply lookup_insert_ne).
  assert (sec1 !! "inputs" = sec !! "inputs") as H3
    by (by apply lookup_insert_ne).
  destruct mcp_config as [| | | | |c];
    try (rewrite Hfin, ?H3 by done; done).
  destruct (c !! "servers") as [s|]; [|by rewrite Hfin, ?H3 by done].
  destruct (c !! "inputs") as [i|]; [|by rewrite Hfin, ?H3 by done].
  rewrite Hfin.
  - by rewrite lookup_insert_eq.
  - by rewrite lookup_insert_ne.
  - intros k' ? ?. rewrite lookup_insert_ne by done. by apply H2.
Qed.

Lemma vscode_section_servers (sec : gmap string json) (mcp_config : json) :
  vscode_section sec mcp_config !! "servers" = Some (servers_to_write mcp_config).
Proof. by rewrite vscode_section_lookup. Qed.

Lemma vscode_section_inputs (sec : gmap string json) (mcp_config : json) :
  vscode_section sec mcp_config !! "inputs"
  = Some (inputs_to_write sec mcp_config).
Proof. by rewrite vscode_section_lookup. Qed.

(** Extract, merge, extract: for every handler and every object the
    handler's own probe accepts, merging the extracted config back into
    the object succeeds, and extracting from the result gives the same
    config again. *)
Theorem extract_merge_extract (h : handler) (m : gmap string json) :
  detect_format h (JObj m) = Some true →
  ∃ e out,
    extract_mcp_config h (JObj m) = Some e
    ∧ merge_mcp_dict h m e = Some out
    ∧ extract_mcp_config h (JObj out) = Some e.
Proof.
  destruct h; cbn.
  - destruct (m !! "mcpServers") as [s|] eqn:Hs; [|done]. intros _.
    eexists _, _. split_and!; [done..|].
    unfold normalized. rewrite !lookup_insert_eq. cbn. by rewrite lookup_insert_eq.
  - destruct (m !! "mcp") as [v|] eqn:Hv; [|done]. intros _.
    eexists _, _. split_and!; [done..|]. by rewrite lookup_insert_eq.
  - destruct (m !! "mcp") as [[| | | | |sec]|] eqn:Hv; try done. cbn.
    destruct (sec !! "servers") as [s|] eqn:Hs; [|done]. intros _. cbn.
    rewrite Hv. eexists _, _. split_and!; [done..|].
    rewrite lookup_insert_eq. cbn.
    rewrite vscode_section_servers, vscode_section_inputs. cbn [default].
    set (e := <["inputs" := default empty_list (sec !! "inputs")]>
                (normalized "vscode" s)).
    assert (e !! "servers" = Some s) as He1
      by (unfold e, normalized; by rewrite lookup_insert_ne, lookup_insert_eq).
    assert (e !! "inputs" = Some (default empty_list (sec !! "inputs"))) as He2
      by apply lookup_insert_eq.
    unfold servers_to_write, inputs_to_write. by rewrite He1, He2.
  - destruct (m !! "mcpServers") as [s|] eqn:Hs; [|done]. cbn.
    destruct (m !! "mcp") as [[| | | | |sec]|] eqn:Hv; try done. intros _. cbn.
    eexists _, _. split_and!; [done..|].
    rewrite lookup_delete_ne by done. by rewrite lookup_insert_eq.
  - intros _. eexists _, _. split_and!; done.
Qed.

Lemma extract_merge_extract_witness :
  ∃ e out,
    extract_mcp_config VSCodeHandler
      (JObj {["mcp" := JObj {["servers" := empty_dict]}]}) = Some e
    ∧ merge_mcp_dict VSCodeHandler {["mcp" := JObj {["servers" := empty_dict]}]} e
      = Some out
    ∧ extract_mcp_config VSCodeHandler (JObj out) = Some e.
Proof.
  apply (extract_merge_extract VSCodeHandler
           {["mcp" := JObj {["servers" := empty_dict]}]}).
  compute_done.
Defined.

(** After any handler but Legacy has merged a canonical config holding a
    [servers] entry, the same handler extracts that entry from the merged
    document. *)
Theorem merge_then_extract_servers (h : handler)
    (m out c : gmap string json) (s : json) :
  h ≠ LegacyMCPHandler →
  c !! "servers" = Some s →
  merge_mcp_dict h m (JObj c) = Some out →
  extract_mcp_config h (JObj out) ≫= Py.get "servers" empty_dict = Some s.
Proof.
  intros Hh Hs Hmerge. destruct h; [| | | |done]; cbn in Hmerge.
  - injection Hmerge as <-. cbn. rewrite lookup_insert_eq. cbn.
    unfold normalized. rewrite lookup_insert_eq. cbn. by rewrite Hs.
  - injection Hmerge as <-. cbn. rewrite lookup_insert_eq. cbn. by rewrite Hs.
  - pose proof (vscode_merge_shape m (JObj c)) as Hshape.
    cbn [merge_mcp_dict] in Hshape.
    destruct (match m !! "mcp" with
              | Some _ => m
              | None => <["mcp" := empty_dict]> m
              end !! "mcp") as [[| | | | |sec]|]; try done.
    injection Hmerge as <-. cbn. rewrite lookup_insert_eq. cbn.
    rewrite vscode_section_servers, vscode_section_inputs. cbn.
    unfold normalized. rewrite lookup_insert_ne by done.
    rewrite lookup_insert_eq. cbn. by rewrite Hs.
  - injection Hmerge as <-. cbn.
    rewrite lookup_delete_ne by done. rewrite lookup_insert_eq. cbn.
    by rewrite Hs.
Qed.

Lemma merge_then_extract_servers_witness :
  extract_mcp_config CursorHandler
    (JObj (delete "mcpServers"
             (<["mcp" := JObj {["servers" := empty_dict]}]>
                {["mcpServers" := JNum 1]})))
  ≫= Py.get "servers" empty_dict = Some empty_dict.
Proof.
  apply (merge_then_extract_servers CursorHandler {["mcpServers" := JNum 1]}
           _ {["servers" := empty_dict]} empty_dict); [done|done|reflexivity].
Defined.

(** Router and extraction on a merged document return the [servers]
    entry that was merged, unless a stale [mcpServers] key is in the
    way. *)
Lemma extracted_servers_merged (h : handler)
    (m out c : gmap string json) (s : json) :
  h = ClaudeDesktopHandler ∨ h = CursorHandler ∨ m !! "mcpServers" = None →
  c !! "servers" = Some s →
  merge_mcp_dict h m (JObj c) = Some out →
  extracted_servers (JObj out) = Some s.
Proof.
  intros Hcase Hs Hmerge. unfold extracted_servers, detect_config_format.
  rewrite first_match_object. cbn [mbind option_bind].
  destruct h; cbn in Hmerge.
  - injection Hmerge as <-. rewrite lookup_insert_eq.
    rewrite bool_decide_eq_true_2 by eauto. cbn. rewrite lookup_insert_eq. cbn.
    unfold normalized. rewrite lookup_insert_eq. cbn. by rewrite Hs.
  - destruct Hcase as [|[|Hm]]; [done..|]. injection Hmerge as <-.
    rewrite lookup_insert_ne, Hm by done.
    rewrite bool_decide_eq_false_2 by (by intros [? ?]).
    rewrite lookup_insert_eq, Hs. rewrite bool_decide_eq_true_2 by eauto.
    cbn. rewrite lookup_insert_eq. cbn. rewrite Hs. cbn.
    unfold normalized. by rewrite lookup_insert_ne, lookup_insert_eq.
  - destruct Hcase as [|[|Hm]]; [done..|].
    destruct (match m !! "mcp" with
              | Some _ => m
              | None => <["mcp" := empty_dict]> m
              end !! "mcp") as [[| | | | |sec]|] eqn:Hsec; try done.
    injection Hmerge as <-.
    assert (match m !! "mcp" with
            | Some _ => m
            | None => <["mcp" := empty_dict]> m
            end !! "mcpServers" = None) as Hno.
    { destruct (m !! "mcp"); [done|]. by rewrite lookup_insert_ne. }
    rewrite lookup_insert_ne, Hno by done.
    rewrite bool_decide_eq_false_2 by (by intros [? ?]).
    rewrite lookup_insert_eq, vscode_section_servers.
    rewrite bool_decide_eq_true_2 by eauto.
    cbn. rewrite lookup_insert_eq. cbn.
    rewrite vscode_section_servers, vscode_section_inputs. cbn.
    unfold normalized. rewrite lookup_insert_ne, lookup_insert_eq by done.
    cbn. by rewrite Hs.
  - injection Hmerge as <-. rewrite lookup_delete_eq.
    rewrite bool_decide_eq_false_2 by (by intros [? ?]).
    rewrite lookup_delete_ne, lookup_insert_eq, Hs by done.
    rewrite bool_decide_eq_true_2 by eauto.
    cbn. rewrite lookup_delete_ne, lookup_insert_eq by done. cbn.
    rewrite Hs. cbn. unfold normalized.
    by rewrite lookup_insert_ne, lookup_insert_eq.
  - destruct Hcase as [|[|Hm]]; [done..|]. injection Hmerge as <-.
    rewrite lookup_insert_ne, Hm by done.
    rewrite bool_decide_eq_false_2 by (by intros [? ?]).
    rewrite lookup_insert_eq, Hs. rewrite bool_decide_eq_true_2 by eauto.
    cbn. rewrite lookup_insert_eq. cbn. rewrite Hs. cbn.
    unfold normalized. by rewrite lookup_insert_ne, lookup_insert_eq.
Qed.

(** What the router reads back from a merged document: when the document
    carries no stale [mcpServers] key, or the writer is the Claude or the
    Cursor handler, router and extraction return the [servers] entry of
    the canonical config that was merged; hence a target holding the
    merged document is not reported by the destructive-change check
    against that canonical config. *)
Theorem extracted_servers_after_merge (h : handler)
    (m out c srv : gmap string json) :
  h = ClaudeDesktopHandler ∨ h = CursorHandler ∨ m !! "mcpServers" = None →
  c !! "servers" = Some (JObj srv) →
  merge_mcp_dict h m (JObj c) = Some out →
  extracted_servers (JObj out) = Some (JObj srv)
  ∧ ∀ f name p,
      load_existing_config f p = JObj out →
      destructive_entry f (JObj srv) (name, p) = Some None.
Proof.
  intros Hcase Hs Hmerge.
  pose proof (extracted_servers_merged h m out c (JObj srv) Hcase Hs Hmerge) as He.
  split; [done|]. intros f name p Hload. unfold destructive_entry.
  destruct (path_exists f p); cbn [negb]; [|done]. rewrite Hload.
  destruct (decide (JObj out = JNull)); [done|]. rewrite He.
  cbn [mbind option_bind]. destruct (Py.truthy (JObj srv)); [|done].
  cbn. destruct (decide (size srv < size srv)); [lia|done].
Qed.

Lemma extracted_servers_after_merge_witness :
  extracted_servers
    (JObj (<["mcp" := JObj {["servers" := empty_dict]}]>
             {["editor.fontSize" := JNum 14]}))
  = Some (JObj ∅)
  ∧ ∀ f name p,
      load_existing_config f p
      = JObj (<["mcp" := JObj {["servers" := empty_dict]}]>
                {["editor.fontSize" := JNum 14]}) →
      destructive_entry f (JObj ∅) (name, p) = Some None.
Proof.
  apply (extracted_servers_after_merge StandardMCPHandler
           {["editor.fontSize" := JNum 14]} _ {["servers" := empty_dict]} ∅);
    [right; right; reflexivity|done|reflexivity].
Defined.

(** Cursor's merge always succeeds; its result has no [mcpServers] key and
    holds the canonical config under [mcp]; and the Cursor handler's own
    probe rejects the result, since the probe requires [mcpServers]. *)
Theorem cursor_merge_cleanup (m : gmap string json) (mcp_config : json) :
  ∃ out,
    merge_mcp_dict CursorHandler m mcp_config = Some out
    ∧ out !! "mcpServers" = None
    ∧ out !! "mcp" = Some mcp_config
    ∧ detect_format CursorHandler (JObj out) = Some false.
Proof.
  eexists. split; [done|]. split_and!.
  - apply lookup_delete_eq.
  - rewrite lookup_delete_ne by done. apply lookup_insert_eq.
  - cbn. by rewrite lookup_delete_eq.
Qed.

(** VSCode's merge, when it returns: the [mcp] section of the result
    holds the servers to write and an [inputs] entry, keeps every other
    entry the section had, the VSCode probe accepts the result, and
    merging the same config again changes nothing. *)
Theorem vscode_merge_idempotent (m out : gmap string json) (mcp_config : json) :
  merge_mcp_dict VSCodeHandler m mcp_config = Some out →
  (∃ sec', out !! "mcp" = Some (JObj sec')
           ∧ sec' !! "servers" = Some (servers_to_write mcp_config)
           ∧ is_Some (sec' !! "inputs")
           ∧ ∀ sec k, m !! "mcp" = Some (JObj sec) →
                      k ≠ "servers" → k ≠ "inputs" → sec' !! k = sec !! k)
  ∧ detect_format VSCodeHandler (JObj out) = Some true
  ∧ merge_mcp_dict VSCodeHandler out mcp_config = Some out.
Proof.
  cbn [merge_mcp_dict].
  set (m' := match m !! "mcp" with
             | Some _ => m
             | None => <["mcp" := empty_dict]> m
             end).
  destruct (m' !! "mcp") as [[| | | | |sec0]|] eqn:Hsec; try done.
  intros [= <-]. rewrite !lookup_insert_eq. split_and!.
  - eexists. split; [done|]. split_and!.
    + apply vscode_section_servers.
    + rewrite vscode_section_inputs. eauto.
    + intros sec k Hm Hk1 Hk2. rewrite vscode_section_lookup.
      rewrite !decide_False by done. unfold m' in Hsec. rewrite Hm in Hsec.
      rewrite Hm in Hsec. by injection Hsec as ->.
  - cbn. rewrite lookup_insert_eq. cbn. rewrite vscode_section_servers.
    by rewrite bool_decide_eq_true_2 by eauto.
  - rewrite insert_insert_eq. do 2 f_equal. f_equal. apply map_eq. intros k.
    rewrite !vscode_section_lookup.
    destruct (decide (k = "servers")); [done|].
    destruct (decide (k = "inputs")) as [->|]; [|done].
    f_equal. unfold inputs_to_write at 1. rewrite vscode_section_inputs.
    cbn [default]. unfold inputs_to_write.
    destruct mcp_config as [| | | | |c]; try done.
    by destruct (c !! "servers"), (c !! "inputs").
Qed.

Lemma vscode_merge_idempotent_witness :
  (∃ sec', ({["mcp" := JObj {["servers" := empty_dict; "inputs" := empty_list]}]}
            : gmap string json) !! "mcp" = Some (JObj sec')
           ∧ sec' !! "servers" = Some (servers_to_write DEFAULT_MCP_CONFIG)
           ∧ is_Some (sec' !! "inputs")
           ∧ ∀ sec k, (∅ : gmap string json) !! "mcp" = Some (JObj sec) →
                      k ≠ "servers" → k ≠ "inputs" → sec' !! k = sec !! k)
  ∧ detect_format VSCodeHandler
      (JObj {["mcp" := JObj {["servers" := empty_dict; "inputs" := empty_list]}]})
    = Some true
  ∧ merge_mcp_dict VSCodeHandler
      {["mcp" := JObj {["servers" := empty_dict; "inputs" := empty_list]}]}
      DEFAULT_MCP_CONFIG
    = Some {["mcp" := JObj {["servers" := empty_dict; "inputs" := empty_list]}]}.
Proof.
  apply (vscode_merge_idempotent ∅ _ DEFAULT_MCP_CONFIG). compute_done.
Defined.

(** * Further properties of [merge_configs] *)

(** When [merge_configs] returns on two dicts, the result is a dict whose
    keys are those of base and overlay together; a key the overlay lacks
    keeps the base's value, and an overlay value that is not a dict
    always wins. *)
Theorem merge_configs_keys (m1 m2 : gmap string json) (r : json) :
  merge_configs (JObj m1) (JObj m2) = Some r →
  ∃ mr, r = JObj mr
        ∧ dom mr = dom m1 ∪ dom m2
        ∧ (∀ k, m2 !! k = None → mr !! k = m1 !! k)
        ∧ (∀ k v, m2 !! k = Some v → Py.is_dict v = false → mr !! k = Some v).
Proof.
  unfold merge_configs. intros (mr & -> & Hk)%deep_merge_lookup.
  exists mr. split; [done|]. split_and!.
  - apply set_eq. intros k. rewrite elem_of_union, !elem_of_dom.
    destruct (Hk k) as [Hk1 Hk2]. split.
    + intros Hmr. destruct (m2 !! k) eqn:H2; [right; eauto|].
      left. by rewrite <- Hk1.
    + intros [H1|H2]; [|by apply Hk2].
      destruct (m2 !! k) eqn:H2; [apply Hk2; eauto|]. by rewrite Hk1.
  - intros k H2. destruct (Hk k) as [Hk1 _]. by rewrite Hk1, H2.
  - intros k v H2 Hv. destruct (Hk k) as [Hk1 _]. rewrite Hk1, H2.
    by destruct v, (m1 !! k).
Qed.

Lemma merge_configs_keys_witness :
  ∃ mr, JObj {["a" := JNum 1; "b" := JNum 2]} = JObj mr
        ∧ dom mr = dom ({["a" := JNum 0]} : gmap string json)
                   ∪ dom ({["a" := JNum 1; "b" := JNum 2]} : gmap string json)
        ∧ (∀ k, ({["a" := JNum 1; "b" := JNum 2]} : gmap string json) !! k = None →
                mr !! k = ({["a" := JNum 0]} : gmap string json) !! k)
        ∧ (∀ k v, ({["a" := JNum 1; "b" := JNum 2]} : gmap string json) !! k = Some v →
                  Py.is_dict v = false → mr !! k = Some v).
Proof.
  apply (merge_configs_keys {["a" := JNum 0]} {["a" := JNum 1; "b" := JNum 2]}).
  compute_done.
Defined.

(** An overlay none of whose dict values meets a key of the base is merged
    without an exception, and the result is the overlay laid over the
    base. *)
Theorem merge_configs_flat (m1 m2 : gmap string json) :
  (∀ k v, m2 !! k = Some v → Py.is_dict v = false ∨ m1 !! k = None) →
  merge_configs (JObj m1) (JObj m2) = Some (JObj (m2 ∪ m1)).
Proof.
  intros Hflat. unfold merge_configs. cbn [deep_merge].
  match goal with
  | |- JObj <$> map_fold ?f ?b m2 = _ =>
      assert (map_fold f b m2 = Some (m2 ∪ m1)) as ->; [|done];
      revert Hflat;
      apply (map_fold_weak_ind
               (λ acc m, (∀ k v, m !! k = Some v →
                                 Py.is_dict v = false ∨ m1 !! k = None) →
                         acc = Some (m ∪ m1)) f b)
  end.
  - intros _. by rewrite (left_id_L ∅ (∪)).
  - intros i x m acc Hi IH Hflat.
    rewrite IH.
    2:{ intros k v Hk. apply Hflat. rewrite lookup_insert_ne; [done|].
        intros ->. congruence. }
    cbn. rewrite lookup_union_r by done.
    destruct (Hflat i x) as [Hx|Hx]; [by rewrite lookup_insert_eq| |].
    + destruct x; try done; by rewrite insert_union_l.
    + rewrite Hx. destruct x; by rewrite insert_union_l.
Qed.

Lemma merge_configs_flat_witness :
  merge_configs (JObj {["servers" := empty_dict]}) (JObj {["inputs" := empty_list]})
  = Some (JObj ({["inputs" := empty_list]} ∪ {["servers" := empty_dict]})).
Proof.
  apply (merge_configs_flat {["servers" := empty_dict]} {["inputs" := empty_list]}).
  intros k v Hk. left.
  destruct (decide (k = "inputs")) as [->|Hne].
  - rewrite lookup_singleton_eq in Hk. by injection Hk as <-.
  - by rewrite lookup_singleton_ne in Hk.
Defined.

(** * Further properties of the file system operations *)

(** A successful write is what the next load returns; the path exists
    afterwards, and what every other path loads is unchanged. *)
Theorem write_then_load (f f' : fsys) (p : path) (j : json) :
  write_file f p j = Some f' →
  load_existing_config f' p = j
  ∧ path_exists f' p = true
  ∧ ∀ q, q ≠ p →
         load_existing_config f' q = load_existing_config f q
         ∧ path_exists f' q = path_exists f q.
Proof.
  unfold write_file. destruct (bool_decide (p ∈ dirs f)) eqn:Hd; [done|].
  destruct (_ || _); [done|]. intros Heq. apply (inj Some) in Heq. subst f'.
  unfold load_existing_config, path_exists. cbn [files dirs].
  rewrite Hd, lookup_insert_eq. split_and!; [done| |].
  - by rewrite bool_decide_eq_true_2 by eauto.
  - intros q Hq. by rewrite lookup_insert_ne.
Qed.

Lemma write_then_load_witness :
  load_existing_config
    (Fsys {[ ["cfg"; "mcp.json"] := Doc empty_dict ]} {[ ["cfg"] ]} ∅)
    ["cfg"; "mcp.json"] = empty_dict
  ∧ path_exists
      (Fsys {[ ["cfg"; "mcp.json"] := Doc empty_dict ]} {[ ["cfg"] ]} ∅)
      ["cfg"; "mcp.json"] = true
  ∧ ∀ q, q ≠ ["cfg"; "mcp.json"] →
         load_existing_config
           (Fsys {[ ["cfg"; "mcp.json"] := Doc empty_dict ]} {[ ["cfg"] ]} ∅) q
         = load_existing_config (Fsys ∅ {[ ["cfg"] ]} ∅) q
         ∧ path_exists
             (Fsys {[ ["cfg"; "mcp.json"] := Doc empty_dict ]} {[ ["cfg"] ]} ∅) q
           = path_exists (Fsys ∅ {[ ["cfg"] ]} ∅) q.
Proof.
  apply (write_then_load (Fsys ∅ {[ ["cfg"] ]} ∅) _ ["cfg"; "mcp.json"] empty_dict).
  compute_done.
Defined.

(** * Further properties of [update_configs] *)

(** The three ways the body of the write loop ends for one target. *)
Lemma update_one_cases (cfg : json) (f : fsys) (name : string) (p : path) :
  let h := get_app_handler name in
  let old := load_existing_config f p in
  (old = JNull ∧ update_one cfg f (name, p) = (skipped_result, f))
  ∨ (old ≠ JNull
     ∧ ∃ out f', merge_mcp_config h old cfg = Some out
                 ∧ write_file f p out = Some f'
                 ∧ update_one cfg f (name, p)
                   = (SyncResult true
                        (if path_exists f p then Updated else Created) (Some h),
                      f'))
  ∨ (old ≠ JNull
     ∧ merge_mcp_config h old cfg ≫= write_file f p = None
     ∧ update_one cfg f (name, p) = (failed_result, f)).
Proof.
  cbn zeta. unfold update_one.
  destruct (decide (load_existing_config f p = JNull)) as [|Hold]; [by left|].
  right.
  destruct (merge_mcp_config _ _ _ ≫= write_file f p) as [f'|] eqn:Hw;
    [left|by right].
  apply bind_Some in Hw as (out & Hm & Hw). split; [done|]. by exists out, f'.
Qed.

(** Two file systems with the same directories and refused paths that
    agree on the file of a target treat that target alike. *)
Lemma update_one_agree (cfg : json) (f g : fsys) (name : string) (p : path) :
  dirs g = dirs f → readonly g = readonly f → files g !! p = files f !! p →
  (update_one cfg g (name, p)).1 = (update_one cfg f (name, p)).1
  ∧ files (update_one cfg g (name, p)).2 !! p
    = files (update_one cfg f (name, p)).2 !! p.
Proof.
  intros Hd Hr Hp. unfold update_one.
  assert (load_existing_config g p = load_existing_config f p) as ->
    by (unfold load_existing_config; by rewrite Hd, Hp).
  assert (path_exists g p = path_exists f p) as ->
    by (unfold path_exists; by rewrite Hd, Hp).
  destruct (decide _); [done|].
  destruct (merge_mcp_config _ _ _) as [out|]; cbn; [|done].
  unfold write_file. rewrite Hd, Hr.
  destruct (_ || _); cbn; [done|]. by rewrite !lookup_insert_eq.
Qed.

(** The file of a path that is no target's path survives the write loop
    as it is, and so do the directories and the refused paths. *)
Lemma update_one_frame (cfg : json) (f : fsys) (t : string * path) (q : path) :
  q ≠ t.2 → files (update_one cfg f t).2 !! q = files f !! q.
Proof.
  destruct t as [name p]. cbn [snd]. intros Hq.
  destruct (update_one_cases cfg f name p)
    as [[_ ->]|[(_ & out & f' & _ & Hw & ->)|(_ & _ & ->)]]; [done| |done].
  unfold write_file in Hw. destruct (_ || _); [done|].
  apply (inj Some) in Hw. subst f'. cbn. by rewrite lookup_insert_ne.
Qed.

Lemma update_all_frame (cfg : json) (targets : list (string * path))
    (results : gmap string sync_result) (f : fsys) (q : path) :
  q ∉ targets.*2 →
  files (update_all cfg targets results f).2 !! q = files f !! q.
Proof.
  revert results f. induction targets as [|t rest IH]; intros results f Hq; [done|].
  rewrite fmap_cons, not_elem_of_cons in Hq. destruct Hq as [Hne Hq].
  cbn [update_all]. pose proof (update_one_frame cfg f t q Hne) as Hone.
  destruct (update_one cfg f t) as [r f']. cbn [snd] in Hone.
  by rewrite IH.
Qed.

(** No file is ever removed by the write loop. *)
Lemma update_all_keeps_files (cfg : json) (targets : list (string * path))
    (results : gmap string sync_result) (f : fsys) (q : path) :
  is_Some (files f !! q) →
  is_Some (files (update_all cfg targets results f).2 !! q).
Proof.
  revert results f. induction targets as [|[name p] rest IH]; intros results f Hq;
    [done|].
  cbn [update_all].
  assert (is_Some (files (update_one cfg f (name, p)).2 !! q)) as Hone.
  { destruct (update_one_cases cfg f name p)
      as [[_ ->]|[(_ & out & f' & _ & Hw & ->)|(_ & _ & ->)]]; [done| |done].
    unfold write_file in Hw. destruct (_ || _); [done|].
    apply (inj Some) in Hw. subst f'. cbn.
    destruct (decide (p = q)) as [->|]; [by rewrite lookup_insert_eq|].
    by rewrite lookup_insert_ne. }
  destruct (update_one cfg f (name, p)) as [r f']. by apply IH.
Qed.

(** In the write loop every target is handled as if it were alone. *)
Lemma update_all_target (cfg : json) (targets : list (string * path))
    (results : gmap string sync_result) (f : fsys) (target : string * path) :
  NoDup targets.*1 → NoDup targets.*2 → target ∈ targets →
  (update_all cfg targets results f).1 !! target.1
  = Some (update_one cfg f target).1
  ∧ files (update_all cfg targets results f).2 !! target.2
    = files (update_one cfg f target).2 !! target.2.
Proof.
  revert results f.
  induction targets as [|t rest IH]; intros results f Hn Hp Hin.
  { by apply elem_of_nil in Hin. }
  rewrite fmap_cons in Hn. rewrite fmap_cons in Hp.
  apply NoDup_cons in Hn as [Hn1 Hn]. apply NoDup_cons in Hp as [Hp1 Hp].
  cbn [update_all]. apply elem_of_cons in Hin as [->|Hin].
  - destruct (update_one cfg f t) as [r f'] eqn:Hone. cbn [fst snd].
    rewrite update_all_lookup_other by done. rewrite lookup_insert_eq.
    by rewrite update_all_frame by done.
  - assert (target.2 ≠ t.2) as Hne.
    { intros Heq. apply Hp1. rewrite <- Heq. by apply list_elem_of_fmap_2. }
    pose proof (update_one_frame cfg f t target.2 Hne) as Hfr.
    pose proof (update_one_dirs cfg f t) as [Hd Hr].
    destruct (update_one cfg f t) as [r f'] eqn:Hone. cbn [snd] in *.
    destruct (IH (<[t.1 := r]> results) f' Hn Hp Hin) as [IH1 IH2].
    destruct target as [name p]. cbn [fst snd] in *.
    destruct (update_one_agree cfg f f' name p Hd Hr Hfr) as [A1 A2].
    by rewrite IH1, IH2, A1, A2.
Qed.

Lemma update_all_dom (cfg : json) (targets : list (string * path))
    (results : gmap string sync_result) (f : fsys) :
  dom (update_all cfg targets results f).1 = dom results ∪ list_to_set targets.*1.
Proof.
  revert results f. induction targets as [|t rest IH]; intros results f.
  { cbn. by rewrite (right_id_L ∅ (∪)). }
  cbn [update_all]. destruct (update_one cfg f t) as [r f'].
  rewrite IH, dom_insert_L, fmap_cons. cbn [list_to_set]. set_solver.
Qed.

(** How a run of [update_configs] that returns decomposes. *)
Lemma update_configs_inv (confirm : list destructive_app → bool)
    (custom_config : json) (force : bool) (st st' : synchronizer)
    (results : gmap string sync_result) :
  update_configs confirm custom_config force st = Some (results, st') →
  ∃ f1,
    ensure_dirs (CONFIG_FILES st) (fs st) = Some f1
    ∧ CONFIG_FILES st' = CONFIG_FILES st
    ∧ (if Py.truthy custom_config
       then merge_configs (config st) custom_config
       else Some (config st)) = Some (config st')
    ∧ ((force = false
        ∧ results = cancelled_results (CONFIG_FILES st) ∧ fs st' = f1)
       ∨ (results, fs st') = update_all (config st') (CONFIG_FILES st) ∅ f1).
Proof.
  unfold update_configs, ensure_directories.
  intros (st1 & H1 & Hrun)%bind_Some.
  apply bind_Some in H1 as (f1 & Hf1 & [= <-]).
  apply bind_Some in Hrun as (cfg & Hcfg & Hrun).
  apply bind_Some in Hrun as (ds & _ & Hrun). cbn in *.
  exists f1. destruct (_ && _) eqn:Hc.
  - injection Hrun as <- <-. split_and!; [done..|]. left.
    apply andb_true_iff in Hc as [[_ Hf]%andb_true_iff _].
    by destruct force.
  - destruct (update_all cfg (CONFIG_FILES st) ∅ f1) as [res f2] eqn:Hupd.
    injection Hrun as <- <-. cbn. split_and!; [done..|]. by right.
Qed.

(** The mapping [update_configs] returns has one entry per target and no
    other, cancelled or not. *)
Theorem update_configs_result_keys (confirm : list destructive_app → bool)
    (custom_config : json) (force : bool) (st st' : synchronizer)
    (results : gmap string sync_result) :
  update_configs confirm custom_config force st = Some (results, st') →
  dom results = list_to_set (CONFIG_FILES st).*1.
Proof.
  intros (f1 & _ & _ & _ & [(_ & -> & _)|Hupd])%update_configs_inv.
  - unfold cancelled_results. rewrite dom_list_to_map_L.
    by rewrite <- list_fmap_compose.
  - pose proof (update_all_dom (config st') (CONFIG_FILES st) ∅ f1) as Hdom.
    rewrite <- Hupd in Hdom. cbn in Hdom. rewrite Hdom. set_solver.
Qed.

(** [update_configs] touches nothing but the files of its targets: the
    target table and the refused paths stay, a path that is no target's
    path keeps its file or its absence, and no file disappears. *)
Theorem update_configs_frame (confirm : list destructive_app → bool)
    (custom_config : json) (force : bool) (st st' : synchronizer)
    (results : gmap string sync_result) :
  update_configs confirm custom_config force st = Some (results, st') →
  CONFIG_FILES st' = CONFIG_FILES st
  ∧ readonly (fs st') = readonly (fs st)
  ∧ (∀ q, q ∉ (CONFIG_FILES st).*2 → files (fs st') !! q = files (fs st) !! q)
  ∧ (∀ q, is_Some (files (fs st) !! q) → is_Some (files (fs st') !! q)).
Proof.
  intros (f1 & Hens & Hcf & _ & Hrun)%update_configs_inv.
  apply ensure_dirs_spec in Hens as (Hfiles & Hro & _ & _).
  split; [done|]. destruct Hrun as [(_ & _ & ->)|Hupd].
  - rewrite Hfiles. by split_and!.
  - pose proof (update_all_dirs (config st') (CONFIG_FILES st) ∅ f1) as [_ Hr].
    pose proof (update_all_frame (config st') (CONFIG_FILES st) ∅ f1) as Hfr.
    pose proof (update_all_keeps_files (config st') (CONFIG_FILES st) ∅ f1) as Hk.
    rewrite <- Hupd in Hr, Hfr, Hk. cbn in Hr, Hfr, Hk. split_and!.
    + congruence.
    + intros q Hq. rewrite Hfr by done. by rewrite Hfiles.
    + intros q Hq. apply Hk. by rewrite Hfiles.
Qed.

Lemma update_one_well_formed (cfg : json) (f : fsys) (name : string) (p : path) :
  well_formed_result name (update_one cfg f (name, p)).1.
Proof.
  destruct (update_one_cases cfg f name p)
    as [[_ ->]|[(_ & out & f' & _ & _ & ->)|(_ & _ & ->)]]; cbn.
  - split_and!; [done| |done]. split; [done|]. by intros [|].
  - split_and!; [by destruct (path_exists f p)| |done].
    split; [|done]. intros _. destruct (path_exists f p); auto.
  - split_and!; [done| |done]. split; [done|]. by intros [|].
Qed.

Lemma update_all_well_formed (cfg : json) (targets : list (string * path))
    (results : gmap string sync_result) (f : fsys) :
  map_Forall well_formed_result results →
  map_Forall well_formed_result (update_all cfg targets results f).1.
Proof.
  revert results f. induction targets as [|[name p] rest IH]; intros results f Hwf;
    [done|].
  cbn [update_all]. pose proof (update_one_well_formed cfg f name p) as Hone.
  destruct (update_one cfg f (name, p)) as [r f']. apply IH.
  by apply map_Forall_insert_2.
Qed.

(** In the mapping of a run that was not cancelled, [success] is true
    exactly for the actions [created] and [updated], a successful entry
    names the handler of its app, and no entry is [cancelled]; a forced
    run is never cancelled. *)
Theorem update_configs_results_well_formed
    (confirm : list destructive_app → bool)
    (custom_config : json) (force : bool) (st st' : synchronizer)
    (results : gmap string sync_result) :
  update_configs confirm custom_config force st = Some (results, st') →
  force = true ∨ results ≠ cancelled_results (CONFIG_FILES st) →
  map_Forall well_formed_result results.
Proof.
  intros (f1 & _ & _ & _ & [(Hf & Hres & _)|Hupd])%update_configs_inv Hnot.
  { destruct Hnot as [->|Hne]; done. }
  pose proof (update_all_well_formed (config st') (CONFIG_FILES st) ∅ f1
                (map_Forall_empty _)) as Hwf.
  by rewrite <- Hupd in Hwf.
Qed.

(** Each target of a run that was not cancelled fares as if it were the
    only one: with distinct app names and distinct paths, its entry and
    its file afterwards are those the body of the loop gives for it on
    the file system left by [ensure_directories]. *)
Theorem update_configs_targets_isolated
    (confirm : list destructive_app → bool)
    (custom_config : json) (force : bool) (st st' : synchronizer)
    (results : gmap string sync_result) (target : string * path) :
  update_configs confirm custom_config force st = Some (results, st') →
  NoDup (CONFIG_FILES st).*1 →
  NoDup (CONFIG_FILES st).*2 →
  target ∈ CONFIG_FILES st →
  ∃ st1,
    ensure_directories st = Some st1
    ∧ (results = cancelled_results (CONFIG_FILES st)
       ∨ (results !! target.1 = Some (update_one (config st') (fs st1) target).1
          ∧ files (fs st') !! target.2
            = files (update_one (config st') (fs st1) target).2 !! target.2)).
Proof.
  intros (f1 & Hens & _ & _ & Hrun)%update_configs_inv Hn Hp Hin.
  exists (set_fs f1 st). unfold ensure_directories. rewrite Hens.
  split; [done|]. destruct Hrun as [(_ & -> & _)|Hupd]; [by left|right].
  pose proof (update_all_target (config st') (CONFIG_FILES st) ∅ f1 target
                Hn Hp Hin) as Ht.
  by rewrite <- Hupd in Ht.
Qed.

(** A merge that returns leaves the keys outside the handler's MCP keys
    alone. *)
Lemma merge_mcp_dict_frame (h : handler) (m out : gmap string json)
    (mcp_config : json) (k : string) :
  merge_mcp_dict h m mcp_config = Some out →
  k ∉ mcp_keys h → out !! k = m !! k.
Proof.
  intros Hm Hk. destruct h; cbn in Hk.
  - injection Hm as <-. apply lookup_insert_ne. set_solver.
  - injection Hm as <-. apply lookup_insert_ne. set_solver.
  - pose proof (vscode_merge_shape m mcp_config) as Hs. rewrite Hm in Hs.
    destruct Hs as [sec ->]. apply lookup_insert_ne. set_solver.
  - injection Hm as <-. rewrite lookup_delete_ne by set_solver.
    apply lookup_insert_ne. set_solver.
  - injection Hm as <-. apply lookup_insert_ne. set_solver.
Qed.

(** End to end: when a target whose file held a JSON object is recorded
    as a success, the file now holds the handler's merge of that object
    with the canonical config, every top-level key outside the handler's
    MCP keys has the value it had, and the action is [updated]. *)
Theorem update_configs_preserves_unrelated_keys
    (confirm : list destructive_app → bool)
    (custom_config : json) (force : bool) (st st' : synchronizer)
    (results : gmap string sync_result) (name : string) (p : path)
    (m : gmap string json) (r : sync_result) :
  update_configs confirm custom_config force st = Some (results, st') →
  NoDup (CONFIG_FILES st).*1 →
  NoDup (CONFIG_FILES st).*2 →
  (name, p) ∈ CONFIG_FILES st →
  files (fs st) !! p = Some (Doc (JObj m)) →
  results !! name = Some r →
  success r = true →
  ∃ out,
    merge_mcp_dict (get_app_handler name) m (config st') = Some out
    ∧ files (fs st') !! p = Some (Doc (JObj out))
    ∧ sync_action r = Updated
    ∧ ∀ k, k ∉ mcp_keys (get_app_handler name) → out !! k = m !! k.
Proof.
  intros Hrun Hn Hp Hin Hfile Hres Hsucc.
  pose proof Hrun as (f1 & Hens & _ & _ & Hcase)%update_configs_inv.
  apply ensure_dirs_spec in Hens as (Hfiles & _ & _ & _).
  destruct Hcase as [(_ & -> & _)|Hupd].
  { pose proof (cancelled_results_lookup _ (name, p) Hin) as Hc.
    cbn [fst] in Hc. rewrite Hc in Hres. by injection Hres as <-. }
  pose proof (update_all_target (config st') (CONFIG_FILES st) ∅ f1 (name, p)
                Hn Hp Hin) as [Ht1 Ht2].
  rewrite <- Hupd in Ht1, Ht2. cbn [fst snd] in Ht1, Ht2.
  rewrite Hres in Ht1. apply (inj Some) in Ht1. subst r.
  destruct (update_one_cases (config st') f1 name p)
    as [[_ Hone]|[(Hold & out & f' & Hm & Hw & Hone)|(_ & _ & Hone)]];
    rewrite Hone in Hsucc, Ht2 |- *; [done| |done].
  cbn [fst snd] in *.
  assert (load_existing_config f1 p = JObj m) as Hload.
  { unfold write_file in Hw. unfold load_existing_config.
    destruct (bool_decide (p ∈ dirs f1)); [done|]. by rewrite Hfiles, Hfile. }
  rewrite Hload in Hm. cbn in Hm.
  apply fmap_Some in Hm as (out' & Hm & ->). exists out'.
  split_and!; [done| | |].
  - rewrite Ht2. unfold write_file in Hw. destruct (_ || _); [done|].
    apply (inj Some) in Hw. subst f'. cbn. by rewrite lookup_insert_eq.
  - unfold path_exists. rewrite Hfiles, Hfile.
    by rewrite bool_decide_eq_true_2 by eauto.
  - intros k Hk. by eapply merge_mcp_dict_frame.
Qed.

Lemma update_configs_result_keys_witness :
  dom vscode_settings_results = list_to_set (CONFIG_FILES vscode_settings).*1.
Proof.
  apply (update_configs_result_keys decline JNull false vscode_settings
           vscode_settings_written vscode_settings_results).
  compute_done.
Defined.

Lemma update_configs_frame_witness :
  CONFIG_FILES vscode_settings_written = CONFIG_FILES vscode_settings
  ∧ readonly (fs vscode_settings_written) = readonly (fs vscode_settings)
  ∧ (∀ q, q ∉ (CONFIG_FILES vscode_settings).*2 →
          files (fs vscode_settings_written) !! q = files (fs vscode_settings) !! q)
  ∧ (∀ q, is_Some (files (fs vscode_settings) !! q) →
          is_Some (files (fs vscode_settings_written) !! q)).
Proof.
  apply (update_configs_frame decline JNull false vscode_settings
           vscode_settings_written vscode_settings_results).
  compute_done.
Defined.

Lemma update_configs_results_well_formed_witness :
  map_Forall well_formed_result vscode_settings_results.
Proof.
  apply (update_configs_results_well_formed decline JNull true vscode_settings
           vscode_settings_written vscode_settings_results).
  - compute_done.
  - left. reflexivity.
Defined.

Lemma update_configs_targets_isolated_witness :
  ∃ st1,
    ensure_directories vscode_settings = Some st1
    ∧ (vscode_settings_results = cancelled_results (CONFIG_FILES vscode_settings)
       ∨ (vscode_settings_results !! "VSCode"
          = Some (update_one (config vscode_settings_written) (fs st1)
                    ("VSCode", vscode_path)).1
          ∧ files (fs vscode_settings_written) !! vscode_path
            = files (update_one (config vscode_settings_written) (fs st1)
                       ("VSCode", vscode_path)).2 !! vscode_path)).
Proof.
  apply (update_configs_targets_isolated decline JNull false vscode_settings
           vscode_settings_written vscode_settings_results ("VSCode", vscode_path)).
  - compute_done.
  - compute_done.
  - compute_done.
  - compute_done.
Defined.

Lemma update_configs_preserves_unrelated_keys_witness :
  ∃ out,
    merge_mcp_dict (get_app_handler "VSCode") {["editor.fontSize" := JNum 14]}
      (config vscode_settings_written) = Some out
    ∧ files (fs vscode_settings_written) !! vscode_path = Some (Doc (JObj out))
    ∧ sync_action (SyncResult true Updated (Some VSCodeHandler)) = Updated
    ∧ ∀ k, k ∉ mcp_keys (get_app_handler "VSCode") →
           out !! k = ({["editor.fontSize" := JNum 14]} : gmap string json) !! k.
Proof.
  apply (update_configs_preserves_unrelated_keys decline JNull false
           vscode_settings vscode_settings_written vscode_settings_results
           "VSCode" vscode_path).
  - compute_done.
  - compute_done.
  - compute_done.
  - compute_done.
  - compute_done.
  - compute_done.
  - reflexivity.
Defined.

(** The directories [ensure_directories] adds lie where no regular file
    is. *)
Lemma ensure_dirs_new_dirs (targets : list (string * path)) (f f' : fsys) (q : path) :
  ensure_dirs targets f = Some f' →
  q ∈ dirs f' → q ∈ dirs f ∨ files f !! q = None.
Proof.
  revert f. induction targets as [|[name p] rest IH]; intros f; cbn.
  - intros [= <-]. auto.
  - intros (f1 & H1 & Hrest)%bind_Some Hq.
    destruct (IH f1 Hrest Hq) as [Hq1|Hq1].
    + unfold mkdir_parents in H1. case_bool_decide as Hall; [|done].
      apply (inj Some) in H1. subst f1. cbn [dirs] in Hq1.
      apply elem_of_union in Hq1 as [|Hq1]; [by left|right].
      apply elem_of_list_to_set in Hq1.
      rewrite Forall_forall in Hall. by apply Hall.
    + right. apply mkdir_parents_spec in H1 as (<- & _). done.
Qed.

(** One target file whose [mcp] entry is not an object, and which has no
    [mcpServers] key, makes [update_configs] raise: the unguarded
    [check_destructive_operations] calls [.get('servers')] on that entry
    before any target is written. *)
Theorem update_configs_raises_on_scalar_mcp
    (confirm : list destructive_app → bool)
    (custom_config : json) (force : bool) (st : synchronizer)
    (name : string) (p : path) (m : gmap string json) (v : json) :
  (name, p) ∈ CONFIG_FILES st →
  p ∉ dirs (fs st) →
  files (fs st) !! p = Some (Doc (JObj m)) →
  m !! "mcpServers" = None →
  m !! "mcp" = Some v →
  Py.is_dict v = false →
  update_configs confirm custom_config force st = None.
Proof.
  intros Hin Hdir Hfile Hsrv Hmcp Hv.
  destruct (update_configs confirm custom_config force st) as [[results st']|]
    eqn:Hrun; [exfalso|done].
  unfold update_configs, ensure_directories in Hrun.
  apply bind_Some in Hrun as (st1 & H1 & Hrun).
  apply bind_Some in H1 as (f1 & Hf1 & [= <-]).
  apply bind_Some in Hrun as (cfg & _ & Hrun).
  apply bind_Some in Hrun as (ds & Hchk & _).
  unfold check_destructive_operations in Hchk. cbn in Hchk.
  apply bind_Some in Hchk as (src & _ & Hchk).
  apply bind_Some in Hchk as (entries & Hmap & _).
  assert (is_Some (destructive_entry f1 src (name, p))) as [e He].
  { assert (is_Some (mapM (destructive_entry f1 src) (CONFIG_FILES st))) as Hsome
      by eauto.
    apply mapM_is_Some in Hsome. rewrite Forall_forall in Hsome.
    by apply (Hsome (name, p)). }
  pose proof (ensure_dirs_spec _ _ _ Hf1) as (Hfiles & _ & _ & _).
  assert (p ∉ dirs f1) as Hdir1.
  { intros Hq. destruct (ensure_dirs_new_dirs _ _ _ p Hf1 Hq); [done|congruence]. }
  assert (path_exists f1 p = true) as Hex.
  { unfold path_exists. rewrite Hfiles, Hfile.
    by rewrite bool_decide_eq_true_2 by eauto. }
  assert (load_existing_config f1 p = JObj m) as Hload.
  { unfold load_existing_config. rewrite Hfiles, Hfile.
    by rewrite bool_decide_eq_false_2 by done. }
  assert (extracted_servers (JObj m) = None) as Hnone.
  { unfold extracted_servers, detect_config_format.
    rewrite first_match_object, Hsrv, Hmcp.
    rewrite bool_decide_eq_false_2 by (by intros [? ?]).
    destruct v; try done; cbn; by rewrite Hmcp. }
  unfold destructive_entry in He. rewrite Hex, Hload in He. cbn [negb] in He.
  destruct (decide (JObj m = JNull)); [done|]. by rewrite Hnone in He.
Qed.

Lemma update_configs_raises_on_scalar_mcp_witness :
  update_configs decline JNull false windsurf_mcp_string = None.
Proof.
  apply (update_configs_raises_on_scalar_mcp decline JNull false
           windsurf_mcp_string "Windsurf" windsurf_path
           {["mcp" := JStr "off"]} (JStr "off")); compute_done.
Defined.

(** * Further properties of validation *)

Lemma jsize_lookup (m : gmap string json) (k : string) (v : json) :
  m !! k = Some v → jsize v < jsize (JObj m).
Proof.
  cbn [jsize]. intros Hk. apply Nat.lt_succ_r. revert k v Hk.
  apply (map_fold_weak_ind
           (λ (acc : nat) (m : gmap string json),
              ∀ k v, m !! k = Some v → jsize v ≤ acc)).
  - intros k v. by rewrite lookup_empty.
  - intros i x m' acc Hi IH k v.
    destruct (decide (i = k)) as [->|Hne].
    + rewrite lookup_insert_eq. intros [= <-]. lia.
    + rewrite lookup_insert_ne by done. intros Hk. specialize (IH k v Hk). lia.
Qed.

(** [check_nested_dict] on two dicts finds nothing when every entry of the
    reference other than [format] is in the app's dict with an equal
    value. *)
Lemma check_nested_dict_covered (n : nat) :
  ∀ (r a : gmap string json) (prefix : string),
    jsize (JObj r) ≤ n →
    (∀ k v, r !! k = Some v → k ≠ "format" → a !! k = Some v) →
    check_nested_dict (JObj r) (JObj a) prefix = Some [].
Proof.
  induction n as [|n IH]; intros r a prefix Hsize Hcov.
  { cbn in Hsize. lia. }
  cbn [check_nested_dict].
  assert (∀ k v, r !! k = Some v → jsize v ≤ n) as Hsmall.
  { intros k v Hk. apply jsize_lookup in Hk. lia. }
  revert Hcov Hsmall.
  match goal with
  | |- _ → _ → map_fold ?f ?b r = _ =>
      apply (map_fold_weak_ind
               (λ acc m,
                  (∀ k v, m !! k = Some v → k ≠ "format" → a !! k = Some v) →
                  (∀ k v, m !! k = Some v → jsize v ≤ n) →
                  acc = Some []) f b)
  end; [done|].
  intros i x m acc Hi IHm Hcov Hsmall.
  rewrite IHm; cycle 1.
  { intros k v Hk. apply Hcov. rewrite lookup_insert_ne; [done|congruence]. }
  { intros k v Hk. apply (Hsmall k). rewrite lookup_insert_ne; [done|congruence]. }
  cbn [mbind option_bind]. destruct (decide (i = "format")); [done|].
  assert (a !! i = Some x) as Ha by (apply Hcov; [apply lookup_insert_eq|done]).
  cbn [Py.contains Py.getitem]. rewrite Ha.
  rewrite bool_decide_eq_true_2 by eauto. cbn [mbind option_bind negb].
  destruct x as [| | | | |rx]; try by rewrite decide_True.
  rewrite (IH rx rx); [done| |done].
  apply (Hsmall i). apply lookup_insert_eq.
Qed.

(** Validation finds no mismatch between a reference dict and an app dict
    that holds every entry of the reference other than [format] with an
    equal value, nested dicts included; in particular a dict validates
    against itself. *)
Theorem check_nested_dict_complete_match (r a : gmap string json) (prefix : string) :
  (∀ k v, r !! k = Some v → k ≠ "format" → a !! k = Some v) →
  check_nested_dict (JObj r) (JObj a) prefix = Some []
  ∧ check_nested_dict (JObj r) (JObj r) prefix = Some [].
Proof.
  intros Hcov. split.
  - by apply (check_nested_dict_covered (jsize (JObj r))).
  - by apply (check_nested_dict_covered (jsize (JObj r))).
Qed.

Lemma check_nested_dict_complete_match_witness :
  check_nested_dict (JObj {["format" := JStr "vscode"; "servers" := empty_dict]})
    (JObj {["servers" := empty_dict; "inputs" := empty_list]}) "" = Some []
  ∧ check_nested_dict (JObj {["format" := JStr "vscode"; "servers" := empty_dict]})
      (JObj {["format" := JStr "vscode"; "servers" := empty_dict]}) "" = Some [].
Proof.
  apply (check_nested_dict_complete_match
           {["format" := JStr "vscode"; "servers" := empty_dict]}
           {["servers" := empty_dict; "inputs" := empty_list]} "").
  apply (proj1 (map_Forall_lookup
                  (λ k v, k ≠ "format" →
                          ({["servers" := empty_dict; "inputs" := empty_list]}
                           : gmap string json) !! k = Some v) _)).
  compute_done.
Defined.

(** A document without [mcpServers] whose [mcp] section holds [servers] is
    routed to the VSCode handler, which extracts servers and inputs. *)
Lemma routed_vscode (out sec : gmap string json) (s : json) :
  out !! "mcpServers" = None →
  out !! "mcp" = Some (JObj sec) →
  sec !! "servers" = Some s →
  detect_config_format (JObj out) = Some VSCodeHandler
  ∧ extract_mcp_config VSCodeHandler (JObj out)
    = Some (JObj (<["inputs" := default empty_list (sec !! "inputs")]>
                    (normalized "vscode" s))).
Proof.
  intros Hno Hmcp Hs. split.
  - unfold detect_config_format. rewrite first_match_object, Hno, Hmcp, Hs.
    rewrite bool_decide_eq_false_2 by (by intros [? ?]).
    by rewrite bool_decide_eq_true_2 by eauto.
  - cbn. rewrite Hmcp. cbn. by rewrite Hs.
Qed.

(** The [mcp] section of a document merged by a handler other than
    Claude's, for a canonical config with a [servers] entry. *)
Lemma merged_section (h : handler) (m out c : gmap string json) (s : json) :
  h ≠ ClaudeDesktopHandler →
  h = CursorHandler ∨ m !! "mcpServers" = None →
  c !! "servers" = Some s →
  merge_mcp_dict h m (JObj c) = Some out →
  out !! "mcpServers" = None
  ∧ ∃ sec, out !! "mcp" = Some (JObj sec)
           ∧ sec !! "servers" = Some s
           ∧ ∀ i, c !! "inputs" = Some i → sec !! "inputs" = Some i.
Proof.
  intros Hh Hcase Hs Hmerge. destruct h; [done| | | |]; cbn in Hmerge.
  - destruct Hcase as [|Hm]; [done|]. injection Hmerge as <-.
    rewrite lookup_insert_ne, lookup_insert_eq by done. eauto.
  - destruct Hcase as [|Hm]; [done|].
    destruct (match m !! "mcp" with
              | Some _ => m
              | None => <["mcp" := empty_dict]> m
              end !! "mcp") as [[| | | | |sec]|] eqn:Hsec; try done.
    injection Hmerge as <-. rewrite lookup_insert_ne, lookup_insert_eq by done.
    split.
    + destruct (m !! "mcp"); [done|]. by rewrite lookup_insert_ne.
    + eexists. split; [done|].
      rewrite vscode_section_servers, vscode_section_inputs.
      unfold servers_to_write, inputs_to_write. rewrite Hs.
      split; [done|]. by intros i ->.
  - injection Hmerge as <-. rewrite lookup_delete_eq.
    rewrite lookup_delete_ne, lookup_insert_eq by done. eauto.
  - destruct Hcase as [|Hm]; [done|]. injection Hmerge as <-.
    rewrite lookup_insert_ne, lookup_insert_eq by done. eauto.
Qed.

(** A target file holding what a handler merged validates in sync with
    the canonical config it was merged from, when that config has a
    [servers] entry and no entries besides [servers], [inputs] and
    [format], and when the file carries no stale [mcpServers] key or the
    writer is the Claude or the Cursor handler. *)
Lemma validate_one_merged (h : handler) (m out c : gmap string json)
    (s : json) (f : fsys) (p : path) :
  c !! "servers" = Some s →
  dom c ⊆ {["format"; "servers"; "inputs"]} →
  h = ClaudeDesktopHandler ∨ h = CursorHandler ∨ m !! "mcpServers" = None →
  merge_mcp_dict h m (JObj c) = Some out →
  path_exists f p = true →
  load_existing_config f p = JObj out →
  ∃ r, validate_one (JObj c) f p = Some r ∧ in_sync r = true.
Proof.
  intros Hs Hdom Hcase Hmerge Hex Hload.
  destruct (decide (h = ClaudeDesktopHandler)) as [->|Hh].
  { cbn in Hmerge. injection Hmerge as <-.
    by apply (validate_after_claude_merge c m). }
  assert (h = CursorHandler ∨ m !! "mcpServers" = None) as Hcase'
    by (destruct Hcase as [|[|]]; [done|by left|by right]).
  destruct (merged_section h m out c s Hh Hcase' Hs Hmerge)
    as (Hno & sec & Hmcp & Hsec & Hinp).
  destruct (routed_vscode out sec s Hno Hmcp Hsec) as [Hdet Hext].
  unfold validate_one. rewrite Hex, Hload. cbn [negb].
  destruct (decide (JObj out = JNull)); [done|].
  rewrite Hdet. cbn [mbind option_bind]. rewrite Hext. cbn [mbind option_bind].
  destruct (decide (VSCodeHandler = ClaudeDesktopHandler)); [done|].
  rewrite (check_nested_dict_covered (jsize (JObj c))); [by eexists|done|].
  intros k v Hk Hne.
  assert (k ∈ dom c) as Hin by (apply elem_of_dom; eauto).
  apply Hdom in Hin.
  assert (k = "servers" ∨ k = "inputs") as [->| ->] by set_solver.
  - unfold normalized. rewrite lookup_insert_ne, lookup_insert_eq by done.
    congruence.
  - rewrite lookup_insert_eq. by rewrite (Hinp v Hk).
Qed.

Example validate_one_merged_vscode :
  ∃ r, validate_one one_server (fs vscode_settings_written) vscode_path = Some r
       ∧ in_sync r = true.
Proof.
  apply (validate_one_merged VSCodeHandler {["editor.fontSize" := JNum 14]}
           {["editor.fontSize" := JNum 14;
             "mcp" := JObj {["servers" := JObj {["a" := server "npx"]};
                             "inputs" := empty_list]}]}
           {["servers" := JObj {["a" := server "npx"]}]}
           (JObj {["a" := server "npx"]})).
  - compute_done.
  - apply (bool_decide_unpack _). compute_done.
  - right. right. compute_done.
  - compute_done.
  - compute_done.
  - compute_done.
Qed.

(** After a run of [update_configs], a target recorded as a success
    validates in sync against the canonical config, provided that config
    is a dict with a [servers] entry and nothing besides [servers],
    [inputs] and [format], and provided the target is written by the
    Claude or the Cursor handler or its file held no [mcpServers] key
    before. *)
Theorem update_configs_then_validate
    (confirm : list destructive_app → bool)
    (custom_config : json) (force : bool) (st st' : synchronizer)
    (results : gmap string sync_result) (name : string) (p : path)
    (c : gmap string json) (s : json) (r : sync_result) :
  update_configs confirm custom_config force st = Some (results, st') →
  NoDup (CONFIG_FILES st).*1 →
  NoDup (CONFIG_FILES st).*2 →
  (name, p) ∈ CONFIG_FILES st →
  config st' = JObj c →
  c !! "servers" = Some s →
  dom c ⊆ {["format"; "servers"; "inputs"]} →
  (get_app_handler name = ClaudeDesktopHandler
   ∨ get_app_handler name = CursorHandler
   ∨ ∀ m, files (fs st) !! p = Some (Doc (JObj m)) → m !! "mcpServers" = None) →
  results !! name = Some r →
  success r = true →
  ∃ v, validate_one (config st') (fs st') p = Some v ∧ in_sync v = true.
Proof.
  intros Hrun Hn Hp Hin Hcfg Hs Hdom Hcase Hres Hsucc.
  pose proof Hrun as (f1 & Hens & _ & _ & Hrunc)%update_configs_inv.
  apply ensure_dirs_spec in Hens as (Hfiles & _ & _ & _).
  destruct Hrunc as [(_ & -> & _)|Hupd].
  { pose proof (cancelled_results_lookup _ (name, p) Hin) as Hc.
    cbn [fst] in Hc. rewrite Hc in Hres. by injection Hres as <-. }
  pose proof (update_all_target (config st') (CONFIG_FILES st) ∅ f1 (name, p)
                Hn Hp Hin) as [Ht1 Ht2].
  pose proof (update_all_dirs (config st') (CONFIG_FILES st) ∅ f1) as [Hd _].
  rewrite <- Hupd in Ht1, Ht2, Hd. cbn [fst snd] in Ht1, Ht2, Hd.
  rewrite Hres in Ht1. apply (inj Some) in Ht1. subst r.
  destruct (update_one_cases (config st') f1 name p)
    as [[_ Hone]|[(Hold & out & f' & Hm & Hw & Hone)|(_ & _ & Hone)]];
    rewrite Hone in Hsucc, Ht2; [done| |done].
  cbn [fst snd] in *.
  assert (p ∉ dirs f1) as Hpd.
  { unfold write_file in Hw. destruct (bool_decide (p ∈ dirs f1)) eqn:Hb; [done|].
    by apply bool_decide_eq_false in Hb. }
  assert (files f' !! p = Some (Doc out)) as Hnew.
  { unfold write_file in Hw. destruct (_ || _); [done|].
    apply (inj Some) in Hw. subst f'. apply lookup_insert_eq. }
  rewrite Hnew in Ht2.
  destruct (load_existing_config f1 p) as [| | | | |m0] eqn:Hload; try done.
  rewrite Hcfg in Hm. cbn in Hm. apply fmap_Some in Hm as (out' & Hm & ->).
  rewrite Hcfg.
  apply (validate_one_merged (get_app_handler name) m0 out' c s); try done.
  - destruct Hcase as [|[|Hno]]; [by left|by right; left|right; right].
    unfold load_existing_config in Hload.
    rewrite bool_decide_eq_false_2 in Hload by done. rewrite Hfiles in Hload.
    destruct (files (fs st) !! p) as [[|j]|] eqn:Hf; [done| |].
    + subst j. by apply Hno.
    + injection Hload as <-. apply lookup_empty.
  - unfold path_exists. rewrite Ht2. by rewrite bool_decide_eq_true_2 by eauto.
  - unfold load_existing_config. rewrite Hd, Ht2.
    by rewrite bool_decide_eq_false_2 by done.
Qed.

Lemma update_configs_then_validate_witness :
  ∃ v, validate_one (config vscode_settings_written) (fs vscode_settings_written)
         vscode_path = Some v
       ∧ in_sync v = true.
Proof.
  apply (update_configs_then_validate decline JNull false vscode_settings
           vscode_settings_written vscode_settings_results "VSCode" vscode_path
           {["servers" := JObj {["a" := server "npx"]}]}
           (JObj {["a" := server "npx"]})
           (SyncResult true Updated (Some VSCodeHandler))).
  - compute_done.
  - compute_done.
  - compute_done.
  - compute_done.
  - compute_done.
  - compute_done.
  - apply (bool_decide_unpack _). compute_done.
  - right. right. intros m Hm.
    assert (files (fs vscode_settings) !! vscode_path
            = Some (Doc (JObj {["editor.fontSize" := JNum 14]}))) as Hf
      by compute_done.
    rewrite Hf in Hm. injection Hm as <-. compute_done.
  - compute_done.
  - reflexivity.
Defined.

(** What the loop of [validate_configs] accumulates. *)
Lemma validate_all_spec (ref : json) (f : fsys) (targets : list (string * path)) :
  ∀ (ok : bool) (res : gmap string validation_result)
    (ok' : bool) (res' : gmap string validation_result),
    validate_all ref f targets ok res = Some (ok', res') →
    NoDup targets.*1 →
    dom res' = dom res ∪ list_to_set targets.*1
    ∧ (∀ name, name ∉ targets.*1 → res' !! name = res !! name)
    ∧ (∀ target, target ∈ targets →
         ∃ r, validate_one ref f target.2 = Some r ∧ res' !! target.1 = Some r)
    ∧ (ok' = true ↔
       ok = true ∧ ∀ target, target ∈ targets →
                     ∃ r, validate_one ref f target.2 = Some r ∧ in_sync r = true).
Proof.
  induction targets as [|[name p] rest IH]; intros ok res ok' res' Hrun Hnd.
  - cbn in Hrun. injection Hrun as <- <-. split_and!.
    + cbn. by rewrite (right_id_L ∅ (∪)).
    + done.
    + by intros ? ?%elem_of_nil.
    + split; [|by intros [? _]]. intros ->. split; [done|].
      by intros ? ?%elem_of_nil.
  - cbn [validate_all] in Hrun. apply bind_Some in Hrun as (r & Hr & Hrun).
    rewrite fmap_cons in Hnd. apply NoDup_cons in Hnd as [Hfresh Hnd].
    destruct (IH _ _ _ _ Hrun Hnd) as (Hdom & Hother & Htargets & Hok).
    split_and!.
    + rewrite Hdom, dom_insert_L, fmap_cons. cbn [list_to_set fst]. set_solver.
    + intros n Hn. rewrite fmap_cons, not_elem_of_cons in Hn.
      destruct Hn as [Hne Hn]. cbn [fst] in Hne.
      rewrite Hother by done. by rewrite lookup_insert_ne.
    + intros t [->|Ht]%elem_of_cons; [|by apply Htargets].
      exists r. split; [done|]. cbn [fst]. rewrite Hother by done.
      by rewrite lookup_insert_eq.
    + rewrite Hok, andb_true_iff. split.
      * intros [[-> Hin] Hrest]. split; [done|].
        intros t [->|Ht]%elem_of_cons; [by exists r|by apply Hrest].
      * intros [-> Hall]. split_and!; [done| |].
        -- destruct (Hall (name, p)) as (r' & Hr' & Hin'); [by left|].
           cbn [snd] in Hr'. congruence.
        -- intros t Ht. apply Hall. by right.
Qed.

Lemma validate_configs_inv_target (reference_config : json) (st : synchronizer)
    (ok : bool) (validation : gmap string validation_result)
    (target : string * path) :
  validate_configs reference_config st = Some (ok, validation) →
  NoDup (CONFIG_FILES st).*1 →
  target ∈ CONFIG_FILES st →
  ∃ v, validate_one (if decide (reference_config = JNull)
                     then config st else reference_config) (fs st) target.2
       = Some v
       ∧ validation !! target.1 = Some v.
Proof.
  unfold validate_configs. intros Hrun Hnd Hin.
  destruct (validate_all_spec _ _ _ _ _ _ _ Hrun Hnd) as (_ & _ & Htargets & _).
  by apply Htargets.
Qed.

(** [validate_configs], when it returns, holds one verdict per target and
    no other, each the verdict of that target alone; the overall flag is
    true exactly when every verdict is [in_sync]; a target without a file
    gets [missing] and one whose file does not load gets [parse_error],
    and neither stops the other targets from being validated. *)
Theorem validate_configs_verdicts (reference_config : json) (st : synchronizer)
    (all_in_sync : bool) (res : gmap string validation_result) :
  validate_configs reference_config st = Some (all_in_sync, res) →
  NoDup (CONFIG_FILES st).*1 →
  let reference :=
    if decide (reference_config = JNull) then config st else reference_config in
  dom res = list_to_set (CONFIG_FILES st).*1
  ∧ (∀ target, target ∈ CONFIG_FILES st →
       is_Some (res !! target.1)
       ∧ validate_one reference (fs st) target.2 = res !! target.1)
  ∧ (all_in_sync = true ↔ map_Forall (λ _ r, in_sync r = true) res)
  ∧ (∀ target, target ∈ CONFIG_FILES st →
       path_exists (fs st) target.2 = false →
       res !! target.1 = Some (ValidationResult false (Some "missing") [] None))
  ∧ (∀ target, target ∈ CONFIG_FILES st →
       path_exists (fs st) target.2 = true →
       load_existing_config (fs st) target.2 = JNull →
       res !! target.1
       = Some (ValidationResult false (Some "parse_error") [] None)).
Proof.
  intros Hrun Hnd. unfold validate_configs in Hrun. cbn zeta.
  set (reference := if decide (reference_config = JNull)
                    then config st else reference_config) in *.
  destruct (validate_all_spec _ _ _ _ _ _ _ Hrun Hnd)
    as (Hdom & _ & Htargets & Hok).
  assert (∀ target, target ∈ CONFIG_FILES st →
            is_Some (res !! target.1)
            ∧ validate_one reference (fs st) target.2 = res !! target.1) as Hver.
  { intros t Ht. destruct (Htargets t Ht) as (r & Hr & Hres).
    rewrite Hr, Hres. eauto. }
  split_and!.
  - rewrite Hdom. set_solver.
  - done.
  - rewrite Hok. split.
    + intros [_ Hall] name r Hr.
      assert (name ∈ dom res) as Hin by (apply elem_of_dom; eauto).
      rewrite Hdom, dom_empty_L, (left_id_L ∅ (∪)) in Hin.
      apply elem_of_list_to_set, list_elem_of_fmap in Hin as (t & -> & Ht).
      destruct (Hall t Ht) as (r' & Hr' & Hin').
      destruct (Htargets t Ht) as (r'' & Hr'' & Hres). congruence.
    + intros Hall. split; [done|]. intros t Ht.
      destruct (Htargets t Ht) as (r & Hr & Hres). exists r. split; [done|].
      by apply (Hall t.1).
  - intros t Ht Hex. destruct (Hver t Ht) as [_ <-].
    unfold validate_one. by rewrite Hex.
  - intros t Ht Hex Hload. destruct (Hver t Ht) as [_ <-].
    unfold validate_one. rewrite Hex, Hload. cbn [negb].
    by destruct (decide (JNull = JNull)).
Qed.

Lemma validate_configs_verdicts_witness :
  let reference :=
    if decide (JNull = JNull) then config broken_cursor_written else JNull in
  dom broken_cursor_verdicts
  = list_to_set (CONFIG_FILES broken_cursor_written).*1
  ∧ (∀ target, target ∈ CONFIG_FILES broken_cursor_written →
       is_Some (broken_cursor_verdicts !! target.1)
       ∧ validate_one reference (fs broken_cursor_written) target.2
         = broken_cursor_verdicts !! target.1)
  ∧ (false = true ↔
     map_Forall (λ _ r, in_sync r = true)
       broken_cursor_verdicts)
  ∧ (∀ target, target ∈ CONFIG_FILES broken_cursor_written →
       path_exists (fs broken_cursor_written) target.2 = false →
       broken_cursor_verdicts !! target.1
       = Some (ValidationResult false (Some "missing") [] None))
  ∧ (∀ target, target ∈ CONFIG_FILES broken_cursor_written →
       path_exists (fs broken_cursor_written) target.2 = true →
       load_existing_config (fs broken_cursor_written) target.2 = JNull →
       broken_cursor_verdicts !! target.1
       = Some (ValidationResult false (Some "parse_error") [] None)).
Proof.
  apply (validate_configs_verdicts JNull broken_cursor_written false
           broken_cursor_verdicts).
  - compute_done.
  - compute_done.
Defined.

(** With a reference config that is not empty but whose [servers] entry is
    missing or empty, a file in the Claude Desktop dialect is reported in
    sync, with reason [format_mismatch_skip], whatever servers it holds. *)
Theorem validate_claude_skipped (reference_config : json) (f : fsys) (p : path)
    (m : gmap string json) (s : json) :
  Py.truthy reference_config = true →
  Py.truthy (servers_or_empty reference_config) = false →
  path_exists f p = true →
  load_existing_config f p = JObj m →
  m !! "mcpServers" = Some s →
  validate_one reference_config f p
  = Some (ValidationResult true (Some "format_mismatch_skip") [] None).
Proof.
  intros Href Hsrv Hex Hload Hs. unfold validate_one.
  rewrite Hex, Hload. cbn [negb]. destruct (decide (JObj m = JNull)); [done|].
  unfold detect_config_format. rewrite first_match_object, Hs.
  rewrite bool_decide_eq_true_2 by eauto. cbn [mbind option_bind].
  cbn [extract_mcp_config Py.get]. cbn [mbind option_bind].
  destruct (decide (ClaudeDesktopHandler = ClaudeDesktopHandler)); [|done].
  by rewrite Hsrv, Href.
Qed.

Lemma validate_claude_skipped_witness :
  validate_one DEFAULT_MCP_CONFIG (fs broken_cursor) claude_path
  = Some (ValidationResult true (Some "format_mismatch_skip") [] None).
Proof.
  apply (validate_claude_skipped DEFAULT_MCP_CONFIG (fs broken_cursor) claude_path
           {["mcpServers" := JObj {["a" := server "npx"]}]}
           (JObj {["a" := server "npx"]})); compute_done.
Defined.

(** * Further properties of [sync_from_file] *)

(** How a call of [sync_from_file] that returns decomposes. *)
Lemma sync_from_file_inv (confirm : list destructive_app → bool)
    (app_name_or_path : string) (force : bool) (st st' : synchronizer) (b : bool) :
  sync_from_file confirm app_name_or_path force st = Some (b, st') →
  (b = false ∧ st' = st)
  ∨ ∃ h mcp_config results ok validation,
      let source :=
        load_existing_config (fs st) (source_path st app_name_or_path) in
      path_exists (fs st) (source_path st app_name_or_path) = true
      ∧ source ≠ JNull
      ∧ detect_config_format source = Some h
      ∧ extract_mcp_config h source = Some mcp_config
      ∧ Py.truthy mcp_config = true
      ∧ update_configs confirm JNull force (set_config mcp_config st)
        = Some (results, st')
      ∧ validate_configs JNull st' = Some (ok, validation)
      ∧ b = bool_decide (print_report results validation = SUCCESS).
Proof.
  unfold sync_from_file.
  destruct (path_exists _ _) eqn:Hex; cbn [negb]; [|intros [= <- <-]; by left].
  destruct (decide _) as [|Hsrc]; [intros [= <- <-]; by left|].
  intros (h & Hh & Hrun)%bind_Some.
  apply bind_Some in Hrun as (mcp & Hmcp & Hrun).
  destruct (Py.truthy mcp) eqn:Ht; cbn [negb] in Hrun;
    [|injection Hrun as <- <-; by left].
  apply bind_Some in Hrun as ([results st2] & Hupd & Hrun).
  apply bind_Some in Hrun as ([ok validation] & Hval & Hrun).
  injection Hrun as <- <-. right. by exists h, mcp, results, ok, validation.
Qed.

Lemma print_report_success (results : gmap string sync_result)
    (validation : gmap string validation_result) :
  print_report results validation = SUCCESS ↔
  map_Forall (λ _ r, success r = true) results
  ∧ map_Forall (λ _ r, in_sync r = true) validation.
Proof.
  unfold print_report.
  destruct (bool_decide (map_Forall (λ _ r, success r = true) results)) eqn:H1;
    destruct (bool_decide (map_Forall (λ _ r, in_sync r = true) validation)) eqn:H2;
    cbn; try apply bool_decide_eq_true in H1; try apply bool_decide_eq_true in H2;
    try apply bool_decide_eq_false in H1; try apply bool_decide_eq_false in H2;
    split; try done; by intros [? ?].
Qed.

(** When [sync_from_file] returns [True], the canonical config is the
    non-empty config extracted from the source, and every target has a
    file holding a JSON document that validates in sync with it. *)
Theorem sync_from_file_true (confirm : list destructive_app → bool)
    (app_name_or_path : string) (force : bool) (st st' : synchronizer) :
  sync_from_file confirm app_name_or_path force st = Some (true, st') →
  NoDup (CONFIG_FILES st).*1 →
  NoDup (CONFIG_FILES st).*2 →
  extracted_config st app_name_or_path = Some (config st')
  ∧ Py.truthy (config st') = true
  ∧ ∀ target, target ∈ CONFIG_FILES st →
      (∃ out, files (fs st') !! target.2 = Some (Doc out))
      ∧ ∃ v, validate_one (config st') (fs st') target.2 = Some v
             ∧ in_sync v = true.
Proof.
  intros Hrun Hn Hp.
  apply sync_from_file_inv in Hrun
    as [[? _]|(h & mcp & results & ok & validation & Hrun)]; [done|].
  cbn zeta in Hrun.
  destruct Hrun as (Hex & Hsrc & Hh & Hmcp & Ht & Hupd & Hval & Hb).
  symmetry in Hb. apply bool_decide_eq_true, print_report_success in Hb
    as [Hsucc Hsync].
  pose proof Hupd as (f1 & _ & Hcf & Hcfg & Hcase)%update_configs_inv.
  cbn [set_config CONFIG_FILES config fs Py.truthy] in Hcfg, Hcf, Hcase.
  injection Hcfg as Hcfg.
  split_and!.
  - unfold extracted_config. rewrite Hh. cbn. by rewrite Hmcp, Hcfg.
  - by rewrite <- Hcfg.
  - intros [name p] Hin. cbn [snd].
    assert (NoDup (CONFIG_FILES st').*1) as Hn' by (by rewrite Hcf).
    destruct (validate_configs_inv_target JNull st' ok validation (name, p)
                Hval Hn') as (v & Hv & Hvres); [by rewrite Hcf|].
    split.
    + destruct Hcase as [(_ & -> & _)|Hall].
      { pose proof (cancelled_results_lookup _ (name, p) Hin) as Hc.
        cbn [fst] in Hc. by specialize (Hsucc name cancelled_result Hc). }
      destruct (update_all_target (config st') (CONFIG_FILES st) ∅ f1 (name, p)
                  Hn Hp Hin) as [Ht1 Ht2].
      rewrite <- Hall in Ht1, Ht2. cbn [fst snd] in Ht1, Ht2.
      pose proof (Hsucc name _ Ht1) as Hs. cbn beta in Hs.
      destruct (update_one_cases (config st') f1 name p)
        as [[_ Hone]|[(_ & out & f' & _ & Hw & Hone)|(_ & _ & Hone)]];
        rewrite Hone in Hs, Ht2; [done| |done].
      exists out. rewrite Ht2. cbn. unfold write_file in Hw.
      destruct (_ || _); [done|]. apply (inj Some) in Hw. subst f'.
      apply lookup_insert_eq.
    + exists v. split; [|by apply (Hsync name)].
      cbn [snd] in Hv. destruct (decide (JNull = JNull)); done.
Qed.

Lemma sync_from_file_true_witness :
  extracted_config claude_only "Claude" = Some (config claude_only_synced)
  ∧ Py.truthy (config claude_only_synced) = true
  ∧ ∀ target, target ∈ CONFIG_FILES claude_only →
      (∃ out, files (fs claude_only_synced) !! target.2 = Some (Doc out))
      ∧ ∃ v, validate_one (config claude_only_synced) (fs claude_only_synced)
               target.2 = Some v
             ∧ in_sync v = true.
Proof.
  apply (sync_from_file_true decline "Claude" false claude_only claude_only_synced).
  - compute_done.
  - compute_done.
  - compute_done.
Defined.

(** A sync the operator declines: when the source is usable and the
    destructive-change check against its config finds something, a call of
    [sync_from_file] without [force] that returns gives [False] and has
    written no file, but the canonical config is already the one extracted
    from the source. *)
Theorem sync_from_file_cancelled (confirm : list destructive_app → bool)
    (app_name_or_path : string) (st st1 : synchronizer) (mcp_config : json)
    (destructive_apps : list destructive_app) (b : bool) (st' : synchronizer) :
  path_exists (fs st) (source_path st app_name_or_path) = true →
  load_existing_config (fs st) (source_path st app_name_or_path) ≠ JNull →
  extracted_config st app_name_or_path = Some mcp_config →
  Py.truthy mcp_config = true →
  ensure_directories (set_config mcp_config st) = Some st1 →
  check_destructive_operations st1 = Some destructive_apps →
  destructive_apps ≠ [] →
  confirm destructive_apps = false →
  CONFIG_FILES st ≠ [] →
  sync_from_file confirm app_name_or_path false st = Some (b, st') →
  b = false ∧ config st' = mcp_config ∧ files (fs st') = files (fs st).
Proof.
  intros Hex Hsrc Hext Ht Hens Hchk Hne Hno Hcf Hrun.
  unfold sync_from_file in Hrun. rewrite Hex in Hrun. cbn [negb] in Hrun.
  destruct (decide _) as [|_] in Hrun; [done|].
  unfold extracted_config in Hext. cbn zeta in Hext.
  apply bind_Some in Hext as (h & Hh & Hmcp).
  rewrite Hh in Hrun. cbn [mbind option_bind] in Hrun.
  rewrite Hmcp in Hrun. cbn [mbind option_bind] in Hrun.
  rewrite Ht in Hrun. cbn [negb] in Hrun.
  apply bind_Some in Hrun as ([results st2] & Hupd & Hrun).
  apply bind_Some in Hrun as ([ok validation] & Hval & Hrun).
  injection Hrun as Hb <-.
  unfold update_configs in Hupd. rewrite Hens in Hupd.
  cbn [mbind option_bind Py.truthy] in Hupd.
  assert (set_config (config st1) st1 = st1) as Hst1 by (by destruct st1).
  rewrite Hst1, Hchk in Hupd. cbn [mbind option_bind] in Hupd.
  rewrite Hno, bool_decide_eq_true_2 in Hupd by done. cbn in Hupd.
  injection Hupd as <- <-.
  unfold ensure_directories in Hens.
  apply bind_Some in Hens as (f1 & Hf1 & [= <-]).
  apply ensure_dirs_spec in Hf1 as (Hfiles & _). cbn in *.
  split_and!; [|done|done].
  destruct b; [|done].
  apply bool_decide_eq_true, print_report_success in Hb as [Hsucc _].
  destruct (CONFIG_FILES st) as [|t rest] eqn:Hts; [done|].
  pose proof (cancelled_results_lookup (t :: rest) t) as Hc.
  specialize (Hsucc t.1 cancelled_result (Hc ltac:(by left))). done.
Qed.

Lemma sync_from_file_cancelled_witness :
  false = false
  ∧ config (set_config cursor_extracted (with_dirs two_targets)) = cursor_extracted
  ∧ files (fs (set_config cursor_extracted (with_dirs two_targets)))
    = files (fs two_targets).
Proof.
  apply (sync_from_file_cancelled decline "Cursor" two_targets
           (with_dirs (set_config cursor_extracted two_targets)) cursor_extracted
           [DestructiveApp "Claude" {["a"; "b"]} {["a"; "b"]} {["c"]}]
           false (set_config cursor_extracted (with_dirs two_targets)));
    compute_done.
Defined.

(** * Further properties of the watcher *)

(** [on_modified] never starts a sync and never changes the delay; the
    only entry of [pending_syncs] it can change is that of the app whose
    config file was modified, and only from idle to a timer due one delay
    after the event.  Events for directories, for files that are no
    target's config file and for missing files change nothing. *)
Theorem on_modified_effect (st : synchronizer) (now : nat) (is_directory : bool)
    (src_path : string) (w : watcher) :
  sync_calls (on_modified st now is_directory src_path w) = sync_calls w
  ∧ debounce_delay (on_modified st now is_directory src_path w) = debounce_delay w
  ∧ (∀ k, pending_syncs (on_modified st now is_directory src_path w) !! k
          ≠ pending_syncs w !! k →
          is_directory = false
          ∧ find_source_app st (Path src_path) = Some k
          ∧ pending_syncs w !! k = None
          ∧ pending_syncs (on_modified st now is_directory src_path w) !! k
            = Some (Timer (now + debounce_delay w) (Path src_path)))
  ∧ (is_directory = true
     ∨ Path src_path ∉ (CONFIG_FILES st).*2
     ∨ path_exists (fs st) (Path src_path) = false →
     on_modified st now is_directory src_path w = w).
Proof.
  unfold on_modified. destruct is_directory.
  { split_and!; [done|done|by intros k []|done]. }
  destruct (find_source_app st (Path src_path)) as [name|] eqn:Hfind.
  2:{ split_and!; [done|done|by intros k []|done]. }
  assert (Path src_path ∈ (CONFIG_FILES st).*2
          ∧ path_exists (fs st) (Path src_path) = true) as [Hin Hex].
  { unfold find_source_app in Hfind.
    apply fmap_Some in Hfind as ([i t] & Hfind & _).
    apply list_find_Some in Hfind as (Hi & (Hex & _ & Heq) & _).
    split; [|done]. rewrite Heq. apply list_elem_of_fmap_2.
    by eapply list_elem_of_lookup_2. }
  case_bool_decide as Hname.
  { split_and!; [done|done|by intros k []|done]. }
  unfold _is_sync_in_progress.
  destruct (pending_syncs w !! name) as [t|] eqn:Hpend.
  { rewrite bool_decide_eq_true_2 by eauto.
    split_and!; [done|done|by intros k []|done]. }
  rewrite bool_decide_eq_false_2 by (by intros [? ?]).
  split_and!; [done|done| |].
  - intros k Hk. unfold _schedule_sync in *. cbn [pending_syncs] in *.
    destruct (decide (name = k)) as [<-|Hne].
    + by rewrite lookup_insert_eq.
    + by rewrite lookup_insert_ne in Hk.
  - intros [|[Hout|Hmiss]]; [done|done|congruence].
Qed.

Lemma on_modified_idle (st : synchronizer) (now : nat) (src_path name : string)
    (w : watcher) :
  name ≠ "" →
  find_source_app st (Path src_path) = Some name →
  pending_syncs w !! name = None →
  on_modified st now false src_path w = _schedule_sync now name (Path src_path) w.
Proof.
  intros Hname Hfind Hidle. unfold on_modified, _is_sync_in_progress.
  rewrite Hfind, Hidle. rewrite bool_decide_eq_false_2 by done.
  by rewrite bool_decide_eq_false_2 by (by intros [? ?]).
Qed.

(** The guard of [on_modified] covers a sync exactly while it runs.  When
    the timer of an app has fired, an event for the app's config file that
    is handled while [sync_from_file] runs, such as the echo of the sync's
    own write, is dropped; the same event handled after the callback has
    returned starts a new timer, and a second sync of the same app runs
    one delay later. *)
Theorem event_after_sync_returns_syncs_again (st : synchronizer) (name : string)
    (w : watcher) (t : timer) (now1 now2 : nat) (src1 src2 : string)
    (horizon : nat) :
  name ≠ "" →
  pending_syncs w !! name = Some t →
  find_source_app st (Path src1) = Some name →
  find_source_app st (Path src2) = Some name →
  now2 + debounce_delay w ≤ horizon →
  let running := _execute_sync_try name w in
  let returned := _execute_sync_finally name running in
  let w2 := on_modified st now2 false src2 returned in
  on_modified st now1 false src1 running = running
  ∧ pending_syncs returned !! name = None
  ∧ pending_syncs w2 !! name = Some (Timer (now2 + debounce_delay w) (Path src2))
  ∧ syncs_of name w2 = syncs_of name w + 1
  ∧ syncs_of name (fire_due horizon w2) = syncs_of name w + 2.
Proof.
  intros Hname Hpend Hf1 Hf2 Hhor. cbn zeta.
  fold (_execute_sync name w).
  assert (pending_syncs (_execute_sync name w) !! name = None) as Hidle.
  { unfold _execute_sync, _execute_sync_finally. cbn [pending_syncs].
    by rewrite lookup_delete_eq. }
  rewrite (on_modified_idle st now2 src2 name (_execute_sync name w)) by done.
  set (w2 := _schedule_sync now2 name (Path src2) (_execute_sync name w)).
  assert (pending_syncs w2 !! name
          = Some (Timer (now2 + debounce_delay w) (Path src2))) as Hp2.
  { unfold w2, _schedule_sync. cbn [pending_syncs]. by rewrite lookup_insert_eq. }
  assert (syncs_of name w2 = syncs_of name w + 1) as Hs2.
  { transitivity (syncs_of name (_execute_sync name w)); [done|].
    rewrite syncs_of_execute. by rewrite decide_True by done. }
  split_and!; [|done|done|done|].
  - unfold on_modified, _is_sync_in_progress. rewrite Hf1.
    rewrite bool_decide_eq_false_2 by done.
    by rewrite bool_decide_eq_true_2 by (cbn [_execute_sync_try pending_syncs]; eauto).
  - destruct (fire_due_spec horizon w2) as (_ & _ & Hs).
    rewrite Hs, Hp2, Hs2. cbn [deadline]. rewrite decide_True by lia. lia.
Qed.

(** The Cursor timer of the first event is due at tick 2 and its sync is
    over by tick 3: the event of tick 2 is dropped, the one of tick 3
    leads to a second sync. *)
Lemma event_after_sync_returns_syncs_again_witness :
  let w := run_events cursor_watched [(0, cursor_src)] (idle 2) in
  let running := _execute_sync_try "Cursor" w in
  let returned := _execute_sync_finally "Cursor" running in
  let w2 := on_modified cursor_watched 3 false cursor_src returned in
  on_modified cursor_watched 2 false cursor_src running = running
  ∧ pending_syncs returned !! "Cursor" = None
  ∧ pending_syncs w2 !! "Cursor"
    = Some (Timer (3 + debounce_delay w) (Path cursor_src))
  ∧ syncs_of "Cursor" w2 = syncs_of "Cursor" w + 1
  ∧ syncs_of "Cursor" (fire_due 5 w2) = syncs_of "Cursor" w + 2.
Proof.
  apply (event_after_sync_returns_syncs_again cursor_watched "Cursor"
           (run_events cursor_watched [(0, cursor_src)] (idle 2))
           (Timer 2 cursor_path) 2 3 cursor_src cursor_src 5); compute_done.
Defined.

(** Timers of different apps do not interfere: firing the due timers
    leaves every timer that is not yet due in place, runs one sync for
    each due one, and keeps the delay. *)
Lemma fire_due_independent (now : nat) (w : watcher) (name : string) (t : timer) :
  pending_syncs w !! name = Some t →
  (now < deadline t →
   pending_syncs (fire_due now w) !! name = Some t
   ∧ syncs_of name (fire_due now w) = syncs_of name w)
  ∧ (deadline t ≤ now →
     pending_syncs (fire_due now w) !! name = None
     ∧ syncs_of name (fire_due now w) = syncs_of name w + 1).
Proof.
  intros Hp. destruct (fire_due_spec now w) as (_ & Hpend & Hcalls).
  rewrite Hpend, Hcalls, Hp. split; intros Hlt.
  - rewrite !decide_False by lia. split; [done|lia].
  - by rewrite !decide_True by lia.
Qed.


(** * Further properties of the installed-application table *)

Lemma parent_snoc (l : path) (x : string) : parent (l ++ [x]) = l.
Proof.
  unfold parent. rewrite length_app. cbn.
  replace (length l + 1 - 1) with (length l) by lia.
  by rewrite take_app_length.
Qed.

Lemma parent_app (l suffix : path) (x : string) :
  parent (l ++ (suffix ++ [x])) = l ++ suffix.
Proof. by rewrite (assoc_L (++)), parent_snoc. Qed.

(** The names and the path suffixes of the class table. *)
Lemma ALL_CONFIG_FILES_names (home : path) :
  (ALL_CONFIG_FILES home).*1
  = ["Cursor"; "Windsurf"; "Roocode-VSCode"; "Roocode-Windsurf"; "Claude"; "VSCode"].
Proof. reflexivity. Qed.

Lemma ALL_CONFIG_FILES_paths (home : path) :
  (ALL_CONFIG_FILES home).*2
  = (λ suffix, home ++ suffix) <$>
    [[".cursor"; "mcp.json"];
     [".codeium"; "windsurf"; "mcp_config.json"];
     ["Library"; "Application Support"; "Code"; "User"; "globalStorage";
      "rooveterinaryinc.roo-cline"; "settings"; "cline_mcp_settings.json"];
     ["Library"; "Application Support"; "Windsurf - Next"; "User";
      "globalStorage"; "rooveterinaryinc.roo-cline"; "settings";
      "mcp_settings.json"];
     ["Library"; "Application Support"; "Claude"; "claude_desktop_config.json"];
     ["Library"; "Application Support"; "Code"; "User"; "settings.json"]].
Proof.
  unfold ALL_CONFIG_FILES, application_support. cbn [fmap list_fmap snd].
  by rewrite <- !(assoc_L (++)).
Qed.

(** The target table of a new synchronizer is a part of the class table,
    in its order; app names are distinct and so are the config paths,
    wherever the home directory is and whatever the file system holds. *)
Theorem installed_apps_distinct (home : path) (f : fsys) :
  CONFIG_FILES (__init__ home f) `sublist_of` ALL_CONFIG_FILES home
  ∧ NoDup (CONFIG_FILES (__init__ home f)).*1
  ∧ NoDup (CONFIG_FILES (__init__ home f)).*2
  ∧ config (__init__ home f) = DEFAULT_MCP_CONFIG.
Proof.
  cbn [__init__ CONFIG_FILES config]. unfold _filter_installed_apps.
  assert (filter (λ entry, installed home f entry = true) (ALL_CONFIG_FILES home)
          `sublist_of` ALL_CONFIG_FILES home) as Hsub by apply sublist_filter.
  split_and!; [done| | |done].
  - eapply sublist_NoDup; [|by apply fmap_sublist].
    rewrite ALL_CONFIG_FILES_names. apply (bool_decide_unpack _). compute_done.
  - eapply sublist_NoDup; [|by apply fmap_sublist].
    rewrite ALL_CONFIG_FILES_paths. apply NoDup_fmap_2; [apply _|].
    apply (bool_decide_unpack _). compute_done.
Qed.

(** The directory whose existence marks each application as installed.
    VSCode and Roocode-VSCode share theirs, so the one is a target exactly
    when the other is; Windsurf is recognised by [~/.codeium]. *)
Theorem installed_directories (home : path) (f : fsys) :
  (∀ name p, (name, p) ∈ ALL_CONFIG_FILES home →
     app_dir home (name, p)
     = Some (if decide (name = "Cursor") then home ++ [".cursor"]
             else if decide (name = "Windsurf") then home ++ [".codeium"]
             else if decide (name = "Claude")
                  then application_support home ++ ["Claude"]
             else if decide (name = "Roocode-Windsurf")
                  then application_support home ++ ["Windsurf - Next"]
             else application_support home ++ ["Code"]))
  ∧ (∀ p q, ("VSCode", p) ∈ ALL_CONFIG_FILES home →
            ("Roocode-VSCode", q) ∈ ALL_CONFIG_FILES home →
            (("VSCode", p) ∈ CONFIG_FILES (__init__ home f)
             ↔ ("Roocode-VSCode", q) ∈ CONFIG_FILES (__init__ home f))).
Proof.
  assert (∀ name p, (name, p) ∈ ALL_CONFIG_FILES home →
     app_dir home (name, p)
     = Some (if decide (name = "Cursor") then home ++ [".cursor"]
             else if decide (name = "Windsurf") then home ++ [".codeium"]
             else if decide (name = "Claude")
                  then application_support home ++ ["Claude"]
             else if decide (name = "Roocode-Windsurf")
                  then application_support home ++ ["Windsurf - Next"]
             else application_support home ++ ["Code"])) as Hdir.
  { intros name p Hin. unfold ALL_CONFIG_FILES in Hin.
    repeat (apply elem_of_cons in Hin as [[= -> ->]|Hin]);
      [..|by apply elem_of_nil in Hin]; cbn; f_equal.
    - apply (parent_app home [".cursor"] "mcp.json").
    - etrans; [apply (f_equal parent),
                 (parent_app home [".codeium"; "windsurf"] "mcp_config.json")|].
      apply (parent_app home [".codeium"] "windsurf").
    - apply (parent_app (home ++ ["Library"; "Application Support"]) ["Claude"]
               "claude_desktop_config.json").
    - etrans; [apply (f_equal parent),
                 (parent_app (home ++ ["Library"; "Application Support"])
                    ["Code"; "User"] "settings.json")|].
      apply (parent_app (home ++ ["Library"; "Application Support"]) ["Code"]
               "User"). }
  split; [done|]. intros p q Hp Hq.
  cbn [__init__ CONFIG_FILES]. unfold _filter_installed_apps.
  rewrite !list_elem_of_filter. unfold installed.
  rewrite (Hdir _ _ Hp), (Hdir _ _ Hq). cbn. tauto.
Qed.

Lemma installed_directories_witness :
  app_dir ["home"] ("Windsurf", ["home"; ".codeium"; "windsurf"; "mcp_config.json"])
  = Some (["home"] ++ [".codeium"]).
Proof.
  apply (proj1 (installed_directories ["home"] (Fsys ∅ ∅ ∅)) "Windsurf"
           ["home"; ".codeium"; "windsurf"; "mcp_config.json"]).
  compute_done.
Defined.

(** * Further properties of the daemon's watch list *)

Lemma schedule_watches_spec (st : synchronizer) (watch_apps : list string) :
  ∀ watched_paths : gset path,
    NoDup (schedule_watches st watch_apps watched_paths)
    ∧ ∀ d, d ∈ schedule_watches st watch_apps watched_paths ↔
           (d ∉ watched_paths)
           ∧ ∃ name config_path,
               name ∈ watch_apps
               ∧ config_file st name = Some config_path
               ∧ parent config_path = d.
Proof.
  induction watch_apps as [|name rest IH]; intros watched.
  { cbn. split; [constructor|]. intros d. split; [by intros ?%elem_of_nil|].
    intros (_ & n & p & Hn%elem_of_nil & _). done. }
  cbn [schedule_watches].
  destruct (config_file st name) as [p|] eqn:Hp.
  - destruct (decide (parent p ∈ watched)) as [Hw|Hw].
    + destruct (IH watched) as [Hnd Hiff]. split; [done|]. intros d.
      rewrite Hiff. split.
      * intros (Hd & n & q & Hn & Hq & <-). split; [done|].
        exists n, q. split_and!; [by right|done..].
      * intros (Hd & n & q & Hn & Hq & <-). split; [done|].
        apply elem_of_cons in Hn as [->|Hn]; [|by exists n, q].
        rewrite Hp in Hq. injection Hq as <-. done.
    + destruct (IH ({[parent p]} ∪ watched)) as [Hnd Hiff]. split.
      * apply NoDup_cons. split; [|done]. rewrite Hiff. intros [Hd _].
        set_solver.
      * intros d. rewrite elem_of_cons, Hiff. split.
        -- intros [->|(Hd & n & q & Hn & Hq & <-)].
           ++ split; [done|]. exists name, p. split_and!; [by left|done..].
           ++ split; [set_solver|]. exists n, q. split_and!; [by right|done..].
        -- intros (Hd & n & q & Hn & Hq & <-).
           destruct (decide (parent q = parent p)) as [Heq|Hne]; [by left|].
           right. split; [set_solver|].
           apply elem_of_cons in Hn as [->|Hn]; [|by exists n, q].
           rewrite Hp in Hq. by injection Hq as <-.
  - destruct (IH watched) as [Hnd Hiff]. split; [done|]. intros d.
    rewrite Hiff. split.
    + intros (Hd & n & q & Hn & Hq & <-). split; [done|].
      exists n, q. split_and!; [by right|done..].
    + intros (Hd & n & q & Hn & Hq & <-). split; [done|].
      apply elem_of_cons in Hn as [->|Hn]; [congruence|by exists n, q].
Qed.

(** The daemon schedules one watch per distinct parent directory: no
    directory twice, and exactly the parent directories of the config
    files of the watched apps that are targets; an app that is not a
    target is skipped, and an empty watch list stands for all targets. *)
Theorem daemon_watch_dirs_spec (st : synchronizer) (watch_apps : list string) :
  NoDup (daemon_watch_dirs st watch_apps)
  ∧ (∀ d, d ∈ daemon_watch_dirs st watch_apps ↔
          ∃ name config_path,
            name ∈ daemon_watch_apps st watch_apps
            ∧ config_file st name = Some config_path
            ∧ parent config_path = d)
  ∧ (watch_apps = [] →
     ∀ name config_path,
       config_file st name = Some config_path →
       parent config_path ∈ daemon_watch_dirs st watch_apps).
Proof.
  unfold daemon_watch_dirs.
  destruct (schedule_watches_spec st (daemon_watch_apps st watch_apps) ∅)
    as [Hnd Hiff].
  split_and!; [done| |].
  - intros d. rewrite Hiff. split; [by intros [_ ?]|]. intros H. split; [|done].
    set_solver.
  - intros -> name p Hp. apply Hiff. split; [set_solver|].
    exists name, p. split_and!; [|done..]. cbn [daemon_watch_apps].
    unfold config_file in Hp. apply fmap_Some in Hp as ([i t] & Hf & _).
    apply list_find_Some in Hf as (Hi & <- & _).
    apply list_elem_of_fmap_2. by eapply list_elem_of_lookup_2.
Qed.

(** * Merging twice *)

Lemma vscode_section_again (sec : gmap string json) (mcp_config : json) :
  vscode_section (vscode_section sec mcp_config) mcp_config
  = vscode_section sec mcp_config.
Proof.
  apply map_eq. intros k. rewrite !vscode_section_lookup.
  destruct (decide (k = "servers")); [done|].
  destruct (decide (k = "inputs")) as [->|]; [|done].
  f_equal. unfold inputs_to_write at 1. rewrite vscode_section_inputs.
  cbn [default]. unfold inputs_to_write.
  destruct mcp_config as [| | | | |c]; try done.
  by destruct (c !! "servers"), (c !! "inputs").
Qed.

(** Every handler's merge is idempotent: merging the same canonical
    config into a document that already is the result of merging it
    succeeds and returns that document unchanged, so a second sync
    rewrites each target with the content it already has. *)
Theorem merge_mcp_dict_idempotent (h : handler) (m out : gmap string json)
    (mcp_config : json) :
  merge_mcp_dict h m mcp_config = Some out →
  merge_mcp_dict h out mcp_config = Some out.
Proof.
  destruct h; cbn [merge_mcp_dict].
  - intros [= <-]. by rewrite insert_insert_eq.
  - intros [= <-]. by rewrite insert_insert_eq.
  - set (m' := match m !! "mcp" with
               | Some _ => m
               | None => <["mcp" := empty_dict]> m
               end).
    destruct (m' !! "mcp") as [[| | | | |sec]|]; try done.
    intros [= <-]. rewrite !lookup_insert_eq.
    by rewrite insert_insert_eq, vscode_section_again.
  - intros [= <-]. f_equal. apply map_eq. intros k.
    destruct (decide (k = "mcpServers")) as [->|Hk].
    + by rewrite !lookup_delete_eq.
    + rewrite !lookup_delete_ne by done.
      destruct (decide (k = "mcp")) as [->|Hk'].
      * by rewrite !lookup_insert_eq.
      * rewrite !lookup_insert_ne by done.
        rewrite lookup_delete_ne by done. by rewrite lookup_insert_ne.
  - intros [= <-]. by rewrite insert_insert_eq.
Qed.

Lemma merge_mcp_dict_idempotent_witness :
  merge_mcp_dict CursorHandler
    (delete "mcpServers" (<["mcp" := DEFAULT_MCP_CONFIG]> {["mcpServers" := empty_dict]}))
    DEFAULT_MCP_CONFIG
  = Some (delete "mcpServers"
            (<["mcp" := DEFAULT_MCP_CONFIG]> {["mcpServers" := empty_dict]})).
Proof.
  apply (merge_mcp_dict_idempotent CursorHandler {["mcpServers" := empty_dict]}).
  reflexivity.
Defined.
